(** * The structured task list of fimcode: [src/manager/TodoManager.ts]

    A shallow embedding of the [TodoManager] class ([update], [render] and the
    [count] getter) together with the small part of the JavaScript host it
    runs on: JSON-like values, [ToBoolean], [String(v)] and
    [String.prototype.trim].  The case mapping of the host,
    [String.prototype.toLocaleLowerCase], is a parameter: what is assumed of it
    is said where it is used.

    Strings are [String.string]: the UTF-8 bytes of the text.  The messages of
    the source are Chinese and are kept as they are written there.

    Around the class: its caller [runTodo], the agent loop of [src/index.ts]
    with its reminder, the [TodoManager] of the tutorial, [safePath],
    [runEdit], and the channels of [src/scripts/version.ts]. *)

From Stdlib Require Import String Ascii List Bool Arith Lia DecimalString.
Import ListNotations.
Open Scope string_scope.
Set Warnings "-register-all,-notation-for-abbreviation".

(* ================================================================== *)
(** ** The host: strings *)
(* ================================================================== *)

Module Js.

(** A string given by the numeric values of its bytes. *)
Definition bytes (l : list nat) : string :=
  string_of_list_ascii (map ascii_of_nat l).

(** The line feed, written ['\n'] in the source. *)
Definition LF : string := bytes [10].

(** Number::toString of an array index or a length: the decimal digits. *)
Definition decimal (n : nat) : string :=
  NilEmpty.string_of_uint (Nat.to_uint n).

Definition reverse (s : string) : string :=
  string_of_list_ascii (List.rev (list_ascii_of_string s)).

(** [between lo hi a]: the byte [a] lies in [lo..hi]. *)
Definition between (lo hi : nat) (a : ascii) : bool :=
  ((lo <=? nat_of_ascii a) && (nat_of_ascii a <=? hi))%nat.

Definition byte_is (n : nat) (a : ascii) : bool := (nat_of_ascii a =? n)%nat.

(** White space and line terminators of ECMAScript (the characters that
    [trim] removes), by the length of their UTF-8 encoding.

    One byte: TAB, LF, VT, FF, CR, SP. *)
Definition ws1 (a : ascii) : bool := between 9 13 a || byte_is 32 a.

(** Two bytes: U+00A0 (C2 A0). *)
Definition ws2 (a b : ascii) : bool := byte_is 194 a && byte_is 160 b.

(** Three bytes: U+1680 (E1 9A 80), U+2000..U+200A (E2 80 80..8A),
    U+2028, U+2029 (E2 80 A8, A9), U+202F (E2 80 AF), U+205F (E2 81 9F),
    U+3000 (E3 80 80), U+FEFF (EF BB BF). *)
Definition ws3 (a b c : ascii) : bool :=
  (byte_is 225 a && byte_is 154 b && byte_is 128 c)
  || (byte_is 226 a && byte_is 128 b && (between 128 138 c || byte_is 168 c || byte_is 169 c || byte_is 175 c))
  || (byte_is 226 a && byte_is 129 b && byte_is 159 c)
  || (byte_is 227 a && byte_is 128 b && byte_is 128 c)
  || (byte_is 239 a && byte_is 187 b && byte_is 191 c).

(** Removes the white space characters at the head of [s]; [p2] and [p3]
    recognise the two- and three-byte ones in the order the bytes are met. *)
Fixpoint strip (p2 : ascii -> ascii -> bool) (p3 : ascii -> ascii -> ascii -> bool)
    (s : string) : string :=
  match s with
  | EmptyString => EmptyString
  | String a r =>
      if ws1 a then strip p2 p3 r
      else match r with
           | EmptyString => s
           | String b r2 =>
               if p2 a b then strip p2 p3 r2
               else match r2 with
                    | EmptyString => s
                    | String c r3 => if p3 a b c then strip p2 p3 r3 else s
                    end
           end
  end.

Definition trimStart (s : string) : string := strip ws2 ws3 s.

(** The end of the string is the head of its reversal, where the bytes of a
    character are met last byte first. *)
Definition trimEnd (s : string) : string :=
  reverse (strip (fun b a => ws2 a b) (fun c b a => ws3 a b c) (reverse s)).

(** [String.prototype.trim]. *)
Definition trim (s : string) : string := trimEnd (trimStart s).

(** The case mapping of Basic Latin: the capitals A to Z go to their small
    letters, every other byte stays.  This is not the lower-casing of the
    host, which also maps letters outside Basic Latin; it is what the host
    does to a text of Basic Latin only. *)
Definition lower_byte (a : ascii) : ascii :=
  if between 65 90 a then ascii_of_nat (nat_of_ascii a + 32) else a.

Fixpoint lower_latin (s : string) : string :=
  match s with
  | EmptyString => EmptyString
  | String a r => String (lower_byte a) (lower_latin r)
  end.

(** A text of Basic Latin only: every byte is below 128. *)
Fixpoint basic_latin (s : string) : bool :=
  match s with
  | EmptyString => true
  | String a r => between 0 127 a && basic_latin r
  end.

(** A Basic Latin letter, or one of the few signs between the two cases
    (the underscore among them): the bytes 65 to 122. *)
Definition wordy (a : ascii) : bool := between 65 122 a.

(** [String.prototype.includes]: [sub] occurs in [s]. *)
Fixpoint includes (s sub : string) : bool :=
  prefix sub s
  || match s with
     | EmptyString => false
     | String _ r => includes r sub
     end.

(** [Array.prototype.includes] on an array of strings. *)
Definition array_includes (l : list string) (x : string) : bool :=
  existsb (String.eqb x) l.

(** [Array.prototype.join]. *)
Definition join (sep : string) (l : list string) : string := String.concat sep l.

(* ------------------------------------------------------------------ *)
(** ** The host: values *)

(** The values a tool call can carry: what [JSON.parse] produces, and
    [undefined] for what is absent.  A number is carried by the text
    Number::toString gives for it, the only view of a number that this code
    takes; [0], [-0] (both print as ["0"]) and [NaN] are the falsy numbers.
    An object is the list of its own properties, the first binding of a key
    being the one in force. *)
Inductive Value : Type :=
| Undefined
| Null
| Boolean (b : bool)
| Number (text : string)
| Str (s : string)
| Array (elements : list Value)
| Object (properties : list (string * Value)).

Section ValueInduction.

Variable P : Value -> Prop.
Hypothesis P_Undefined : P Undefined.
Hypothesis P_Null : P Null.
Hypothesis P_Boolean : forall b, P (Boolean b).
Hypothesis P_Number : forall t, P (Number t).
Hypothesis P_Str : forall s, P (Str s).
Hypothesis P_Array : forall l, Forall P l -> P (Array l).
Hypothesis P_Object : forall ps, P (Object ps).

(** Induction on a value, through the elements of its arrays. *)
Fixpoint Value_elements_ind (v : Value) : P v :=
  match v with
  | Undefined => P_Undefined
  | Null => P_Null
  | Boolean b => P_Boolean b
  | Number t => P_Number t
  | Str s => P_Str s
  | Array l =>
      P_Array l
        ((fix all (l : list Value) : Forall P l :=
            match l with
            | [] => Forall_nil P
            | e :: r => Forall_cons e (Value_elements_ind e) (all r)
            end) l)
  | Object ps => P_Object ps
  end.

End ValueInduction.

(** [ToBoolean]. *)
Definition truthy (v : Value) : bool :=
  match v with
  | Undefined | Null => false
  | Boolean b => b
  | Number t => negb ((t =? "0") || (t =? "NaN"))
  | Str s => negb (s =? "")
  | Array _ | Object _ => true
  end.

(** [a || b]. *)
Definition or_else (a b : Value) : Value := if truthy a then a else b.

(** What the host refuses to do, in this code: to call a property that is no
    function, to convert an object that gives no primitive value, to read a
    property of [null] or [undefined]. *)
Inductive Refusal : Type :=
| not_a_function
| not_a_primitive
| no_properties.

(** What a method body can throw: [new Error(message)], or a [TypeError] of
    the host. *)
Inductive Thrown : Type :=
| Error (message : string)
| TypeError (refusal : Refusal).

(** Whether an object has an own property [k]. *)
Definition has_key (k : string) (ps : list (string * Value)) : bool :=
  existsb (fun p => fst p =? k) ps.

(** [String(v)], which returns a string or throws.

    An object is converted by its [toString] method, then by [valueOf].  No
    value of [Value] is a function, so an own property [toString] hides the
    method of [Object.prototype] and cannot be called; [valueOf], own or not,
    gives no primitive value; the host then throws a [TypeError].  Without an
    own [toString] the object prints as [[object Object]].

    An array prints its elements from left to right, separated by commas,
    [null] and [undefined] elements as nothing, the others by [String]; the
    first element that throws makes the array throw. *)
Fixpoint ToString (v : Value) : Thrown + string :=
  match v with
  | Undefined => inr "undefined"
  | Null => inr "null"
  | Boolean true => inr "true"
  | Boolean false => inr "false"
  | Number t => inr t
  | Str s => inr s
  | Array l =>
      match
        (fix elements (l : list Value) : Thrown + list string :=
           match l with
           | [] => inr []
           | e :: r =>
               match
                 match e with
                 | Undefined | Null => inr ""
                 | _ => ToString e
                 end
               with
               | inl thrown => inl thrown
               | inr s =>
                   match elements r with
                   | inl thrown => inl thrown
                   | inr ss => inr (s :: ss)
                   end
               end
           end) l
      with
      | inl thrown => inl thrown
      | inr ss => inr (join "," ss)
      end
  | Object ps =>
      if has_key "toString" ps then inl (TypeError not_a_primitive)
      else inr "[object Object]"
  end.

(** [String] of an element of an array. *)
Definition element_text (e : Value) : Thrown + string :=
  match e with
  | Undefined | Null => inr ""
  | _ => ToString e
  end.

Fixpoint lookup (k : string) (ps : list (string * Value)) : Value :=
  match ps with
  | [] => Undefined
  | (k', v) :: r => if k' =? k then v else lookup k r
  end.

(** [item?.k] for [k] one of [content], [status], [activeForm]: [undefined]
    on [null] and [undefined]; on an object its property; on a primitive or
    an array [undefined], as neither they nor their prototypes have a
    property of these names. *)
Definition optget (item : Value) (k : string) : Value :=
  match item with
  | Object ps => lookup k ps
  | _ => Undefined
  end.

(* ------------------------------------------------------------------ *)
(** ** The host: lower case *)

(** What is assumed of the [toLocaleLowerCase] of the host, where a theorem
    needs it.

    On a text of Basic Latin it is the case mapping of Basic Latin.  This
    holds in every locale but Turkish and Azeri, which map I to the dotless
    i. *)
Definition lowers_basic_latin (lower : string -> string) : Prop :=
  forall s, basic_latin s = true -> lower s = lower_latin s.

(** A text with a character outside Basic Latin does not become a text of
    Basic Latin, unless a k is in the result: the one character outside
    Basic Latin that Unicode maps into it is the Kelvin sign, to k.  This
    too holds in every locale but Turkish and Azeri, which map the dotted
    capital I to i. *)
Definition keeps_other_letters_apart (lower : string -> string) : Prop :=
  forall s, basic_latin (lower s) = true -> includes (lower s) "k" = false ->
            basic_latin s = true.

Section Host.

(** [String.prototype.toLocaleLowerCase], called with no argument: the case
    mapping of the default locale of the host. *)
Variable toLocaleLowerCase : string -> string.

(** [v.toLocaleLowerCase()].  Only strings have the method; no value of
    [Value] holds a function, so on every other value the call throws. *)
Definition call_toLocaleLowerCase (v : Value) : Thrown + string :=
  match v with
  | Str s => inr (toLocaleLowerCase s)
  | _ => inl (TypeError not_a_function)
  end.

End Host.

End Js.

(* ================================================================== *)
(** ** [TodoManager] *)
(* ================================================================== *)

Module TodoManager.
Import Js.

(** [interface TodoItem].  At run time [status] is the string that passed the
    check of [update]; the type [TodoStatus] is erased. *)
Record TodoItem : Type := mkTodoItem {
  content : string;
  status : string;
  activeForm : string
}.

(** The instance: its one field, [private items: TodoItem[] = []]. *)
Record TodoManager : Type := mkTodoManager { items : list TodoItem }.

(** [new TodoManager()]. *)
Definition new : TodoManager := mkTodoManager [].

(** A method body: it reads and writes the fields of [this], and either
    returns or throws.  What was written before a throw stays written. *)
Definition Method (A : Type) : Type := TodoManager -> TodoManager * (Thrown + A).

Definition ret {A} (a : A) : Method A := fun this => (this, inr a).

Definition throw {A} (e : Thrown) : Method A := fun this => (this, inl e).

Definition bind {A B} (m : Method A) (k : A -> Method B) : Method B :=
  fun this =>
    match m this with
    | (this', inr a) => k a this'
    | (this', inl e) => (this', inl e)
    end.

Notation "x <- m ;; k" := (bind m (fun x => k))
  (at level 61, m at next level, right associativity).
Notation "m ;; k" := (bind m (fun _ => k))
  (at level 61, right associativity).

(** [if (c) { throw e }]. *)
Definition throw_if (c : bool) (e : Thrown) : Method unit :=
  if c then throw e else ret tt.

(** A host operation that may throw, run inside a method. *)
Definition lift {A} (r : Thrown + A) : Method A := fun this => (this, r).

(** [this.items]. *)
Definition get_items : Method (list TodoItem) := fun this => (this, inr (items this)).

(** [this.items = l]. *)
Definition set_items (l : list TodoItem) : Method unit :=
  fun _ => (mkTodoManager l, inr tt).

(** The three legal statuses, the array literal of line 48. *)
Definition statuses : list string := ["pending"; "in_progress"; "completed"].

(** The messages of the five [throw] statements. *)
Definition need_content (i : nat) : string :=
  "第 " ++ decimal i ++ " 项: 需要内容 (content)".

Definition invalid_status (i : nat) (status : string) : string :=
  "第 " ++ decimal i ++ " 项: 无效状态 '" ++ status ++ "'".

Definition need_activeForm (i : nat) : string :=
  "第 " ++ decimal i ++ " 项: 需要 activeForm".

Definition too_many : string := "最多允许20项待办事项".

Definition multiple_in_progress : string :=
  "同一时间只能有一项任务进行中(in_progress)".

Section Host.

Variable toLocaleLowerCase : string -> string.

(** The body of the [for] loop of [update] on the items from index [i] on,
    with the two locals [validated] and [inProgressCount].  The three fields
    are taken in the order of lines 40 to 42, each of which can throw, before
    the first check. *)
Fixpoint for_items (rest : list Value) (i : nat)
    (validated : list TodoItem) (inProgressCount : nat)
    : Method (list TodoItem * nat) :=
  match rest with
  | [] => ret (validated, inProgressCount)
  | item :: rest' =>
      c <- lift (ToString (or_else (optget item "content") (Str ""))) ;;
      let content := trim c in
      status <- lift (call_toLocaleLowerCase toLocaleLowerCase
                        (or_else (optget item "status") (Str "pending"))) ;;
      a <- lift (ToString (or_else (optget item "activeForm") (Str ""))) ;;
      let activeForm := trim a in
      throw_if (content =? "") (Error (need_content i)) ;;
      throw_if (negb (array_includes statuses status)) (Error (invalid_status i status)) ;;
      throw_if (activeForm =? "") (Error (need_activeForm i)) ;;
      let inProgressCount :=
        if status =? "in_progress" then S inProgressCount else inProgressCount in
      for_items rest' (S i) (validated ++ [mkTodoItem content status activeForm])
        inProgressCount
  end.

(** One line of the view, the body of the [for...of] loop of [render]. *)
Definition line (item : TodoItem) : string :=
  if status item =? "completed" then "[x] " ++ content item
  else if status item =? "in_progress" then
    "[>] " ++ content item ++ " <- " ++ activeForm item
  else "[ ] " ++ content item.

(** The sentinel of the empty list. *)
Definition no_todos : string := "没有待办事项。".

(** [render()]. *)
Definition render : Method string :=
  items <- get_items ;;
  if (List.length items =? 0)%nat then ret no_todos
  else
    let lines := fold_left (fun lines item => (lines ++ [line item])%list) items [] in
    let completed :=
      List.length (filter (fun t => status t =? "completed") items) in
    let summary :=
      LF ++ "(" ++ decimal completed ++ "/" ++ decimal (List.length items) ++ " 已完成)" in
    let lines := (lines ++ [summary])%list in
    ret (join LF lines).

(** [update(items)]. *)
Definition update (items : list Value) : Method string :=
  r <- for_items items 0 [] 0 ;;
  let validated := fst r in
  let inProgressCount := snd r in
  throw_if (20 <? List.length validated)%nat (Error too_many) ;;
  throw_if (1 <? inProgressCount)%nat (Error multiple_in_progress) ;;
  set_items validated ;;
  render.

End Host.

(** [get count()]. *)
Definition count : Method nat :=
  items <- get_items ;; ret (List.length items).

End TodoManager.

(* ================================================================== *)
(** ** What [update] does to one record, read off the loop body *)
(* ================================================================== *)

Module Spec.
Import Js TodoManager.

(** [String(v).trim()]. *)
Definition trimmed (v : Value) : Thrown + string :=
  match ToString v with
  | inl e => inl e
  | inr s => inr (trim s)
  end.

Section Host.

Variable toLocaleLowerCase : string -> string.

(** The three extractions of lines 40-42: each gives a string or throws. *)
Definition content_of (item : Value) : Thrown + string :=
  trimmed (or_else (optget item "content") (Str "")).

Definition status_of (item : Value) : Thrown + string :=
  call_toLocaleLowerCase toLocaleLowerCase (or_else (optget item "status") (Str "pending")).

Definition activeForm_of (item : Value) : Thrown + string :=
  trimmed (or_else (optget item "activeForm") (Str "")).

(** The outcome of one turn of the loop for the record at index [i]: the
    first thing thrown, by an extraction or by a check, or the record that is
    pushed. *)
Definition validate (i : nat) (item : Value) : Thrown + TodoItem :=
  match content_of item with
  | inl e => inl e
  | inr content =>
      match status_of item with
      | inl e => inl e
      | inr status =>
          match activeForm_of item with
          | inl e => inl e
          | inr activeForm =>
              if content =? "" then inl (Error (need_content i))
              else if negb (array_includes statuses status)
              then inl (Error (invalid_status i status))
              else if activeForm =? "" then inl (Error (need_activeForm i))
              else inr (mkTodoItem content status activeForm)
          end
      end
  end.

(** The record pushed for [item], when its turn of the loop throws nothing. *)
Definition record_of (item : Value) : option TodoItem :=
  match validate 0 item with
  | inr t => Some t
  | inl _ => None
  end.

(** [records items ts]: every record of [items] passes the loop body and
    [ts] are the records pushed, in order. *)
Definition records (items : list Value) (ts : list TodoItem) : Prop :=
  Forall2 (fun item t => record_of item = Some t) items ts.

(** A record valid in the words of the specification, and the record it is
    stored as: its content and its activeForm can be converted to text and
    are not empty once trimmed, and its status is a string that is one of the
    three once in lower case; the stored record has the trimmed texts and the
    status in lower case. *)
Definition well_formed (item : Value) (t : TodoItem) : Prop :=
  content_of item = inr (content t) /\ content t <> ""
  /\ activeForm_of item = inr (activeForm t) /\ activeForm t <> ""
  /\ exists s, optget item "status" = Str s
               /\ toLocaleLowerCase s = status t /\ In (status t) statuses.

End Host.

Definition is_in_progress (t : TodoItem) : bool := status t =? "in_progress".

Definition is_completed (t : TodoItem) : bool := status t =? "completed".

(** How many records are [in_progress], [completed]. *)
Definition in_progress (ts : list TodoItem) : nat :=
  List.length (filter is_in_progress ts).

Definition completed (ts : list TodoItem) : nat :=
  List.length (filter is_completed ts).

(** The view as the specification words it: one line per record, each ended
    by a line feed, then an empty line, then the summary. *)
Definition view_line (t : TodoItem) : string :=
  if is_completed t then "[x] " ++ content t
  else if is_in_progress t then "[>] " ++ content t ++ " <- " ++ activeForm t
  else "[ ] " ++ content t.

Fixpoint view_lines (ts : list TodoItem) : string :=
  match ts with
  | [] => ""
  | t :: r => view_line t ++ LF ++ view_lines r
  end.

Definition view_with (done : string) (ts : list TodoItem) : string :=
  match ts with
  | [] => no_todos
  | _ =>
      view_lines ts ++ LF
        ++ "(" ++ decimal (completed ts) ++ "/" ++ decimal (List.length ts)
        ++ " " ++ done ++ ")"
  end.

(** The summary ends in the word of the source. *)
Definition view (ts : list TodoItem) : string := view_with "已完成" ts.

(** The summary as the specification quotes it, ending in [done]. *)
Definition view_as_specified (ts : list TodoItem) : string := view_with "done" ts.

(** A record as the tool schema describes it: three string fields. *)
Definition record (c s a : string) : Value :=
  Object [("content", Str c); ("status", Str s); ("activeForm", Str a)].

(** The same with fields of any type. *)
Definition fields (c s a : Value) : Value :=
  Object [("content", c); ("status", s); ("activeForm", a)].

(** The two records of scenario B. *)
Definition scenario_B : list Value :=
  [record "Write tests" "in_progress" "Writing tests";
   record "Ship" "pending" "Shipping"].

End Spec.

(* ================================================================== *)
(** ** What the manager keeps, and what comes back from it *)
(* ================================================================== *)

Module Stored.
Import Js TodoManager Spec.

(** A record as [update] leaves it: a legal status, and a content and an
    activeForm that are not empty and have no white space at their ends. *)
Definition kept (t : TodoItem) : bool :=
  array_includes statuses (status t)
  && negb (content t =? "") && (trim (content t) =? content t)
  && negb (activeForm t =? "") && (trim (activeForm t) =? activeForm t).

(** The constraints of the class comment, on the stored list: at most 20
    records, at most one in progress, every record as [update] leaves it. *)
Definition well_kept (this : TodoManager) : bool :=
  (List.length (items this) <=? 20)%nat
  && (in_progress (items this) <=? 1)%nat
  && forallb kept (items this).

(** A stored record sent back as a candidate record. *)
Definition resubmit (t : TodoItem) : Value :=
  record (content t) (status t) (activeForm t).

(** The manager after a series of calls of [update], each on the manager the
    call before it left, whether it returned or threw. *)
Definition after (toLocaleLowerCase : string -> string)
    (calls : list (list Value)) (this : TodoManager) : TodoManager :=
  fold_left (fun this items => fst (update toLocaleLowerCase items this)) calls this.

End Stored.

(* ================================================================== *)
(** ** The tool of the task list: [runTodo] *)
(* ================================================================== *)

Module TodoTool.
Import Js TodoManager.

Section Host.

Variable toLocaleLowerCase : string -> string.

(** The message of a [TypeError] of the host; its text is the engine's. *)
Variable type_error_message : Refusal -> string.

(** [error instanceof Error ? error.message : String(error)]: all that
    [update] throws is an [Error]. *)
Definition message (error : Thrown) : string :=
  match error with
  | Error m => m
  | TypeError refusal => type_error_message refusal
  end.

(** [try { m } catch (error) { h }]. *)
Definition try_catch {A} (m : Method A) (h : Thrown -> Method A) : Method A :=
  fun this =>
    match m this with
    | (this', inr a) => (this', inr a)
    | (this', inl error) => h error this'
    end.

(** [runTodo(items)], on the one manager [TODO] of the module. *)
Definition runTodo (items : list Value) : Method string :=
  try_catch (update toLocaleLowerCase items)
    (fun error => ret ("错误: " ++ message error)).

End Host.

End TodoTool.

(* ================================================================== *)
(** ** [safePath], of [src/utils/safePath.ts] *)
(* ================================================================== *)

Module SafePath.
Import Js.

Definition is_slash (a : ascii) : bool := byte_is 47 a.

(** [s.replace(/\/+/g, '/')]: every run of slashes becomes one slash, that
    is, a slash followed by a slash is dropped. *)
Fixpoint collapse (s : string) : string :=
  match s with
  | EmptyString => EmptyString
  | String a r =>
      match r with
      | EmptyString => s
      | String b _ => if is_slash a && is_slash b then collapse r else String a (collapse r)
      end
  end.

(** Whether two slashes follow each other somewhere in [s]. *)
Fixpoint double_slash (s : string) : bool :=
  match s with
  | EmptyString => false
  | String a r =>
      match r with
      | EmptyString => false
      | String b _ => (is_slash a && is_slash b) || double_slash r
      end
  end.

Section Cwd.

(** [const WORKDIR = process.cwd()]. *)
Variable WORKDIR : string.

(** [safePath(path)]. *)
Definition safePath (path : string) : Thrown + string :=
  let resolved := collapse (WORKDIR ++ "/" ++ path) in
  if negb (prefix WORKDIR resolved)
  then inl (Error ("路径超出工作区: " ++ path))
  else inr resolved.

End Cwd.

End SafePath.

(* ================================================================== *)
(** ** The agent loop, of [src/index.ts] *)
(* ================================================================== *)

Module AgentLoop.
Import Js.

(** The blocks of a response of the model: text, a tool call, or a block of
    another type, which the loop passes over. *)
Inductive Block : Type :=
| TextBlock (text : string)
| ToolUse (id name : string) (input : Value)
| OtherBlock.

Record Response : Type := mkResponse {
  content : list Block;
  stop_reason : string
}.

(** The blocks of a user message: the result of a tool call, or text. *)
Inductive Param : Type :=
| ToolResult (tool_use_id : string) (output : string)
| TextParam (text : string).

Inductive Message : Type :=
| Assistant (blocks : list Block)
| User (params : list Param).

Definition NAG_REMINDER : string :=
  "<reminder>已超过 10 轮没有更新待办事项。请更新待办事项。</reminder>".

(** The ids of the tool calls of a response, and the ids the results of a
    user message answer to, in order. *)
Definition ids (blocks : list Block) : list string :=
  flat_map (fun block => match block with ToolUse id _ _ => [id] | _ => [] end) blocks.

Definition result_ids (params : list Param) : list string :=
  flat_map (fun param => match param with ToolResult id _ => [id] | _ => [] end) params.

(** A block that is the result of a tool call. *)
Definition is_result (p : Param) : Prop := exists id output, p = ToolResult id output.

(** Whether one of the tool calls of a response is named [todo_write]. *)
Definition uses_todo (blocks : list Block) : bool :=
  existsb (fun block => match block with ToolUse _ name _ => name =? "todo_write" | _ => false end)
    blocks.

(** Whether a message is a user message that starts with the reminder. *)
Definition nagged (m : Message) : bool :=
  match m with
  | User (TextParam text :: _) => text =? NAG_REMINDER
  | _ => false
  end.

(** For each user message of a history, whether it starts with the reminder. *)
Definition reminders (ms : list Message) : list bool :=
  map nagged (filter (fun m => match m with User _ => true | _ => false end) ms).

(** A stretch of history in which every assistant message is followed by a
    user message that answers its tool calls, each once and in order; when
    [final], one more assistant message ends it. *)
Fixpoint paired (final : bool) (ms : list Message) : Prop :=
  match ms with
  | [] => final = false
  | Assistant blocks :: rest =>
      match rest with
      | [] => final = true
      | User params :: rest' => result_ids params = ids blocks /\ paired final rest'
      | Assistant _ :: _ => False
      end
  | User _ :: _ => False
  end.

Section Tools.

(** What the tools act on, and [executeTool], which answers with a string or
    rejects. *)
Variable World : Type.
Variable executeTool : string -> Value -> World -> World * (Thrown + string).

(** The array [messages] the loop pushes to, the module variable
    [roundsWithoutTodo], and the world of the tools.  What the loop writes to
    the console is left out. *)
Record Agent : Type := mkAgent {
  messages : list Message;
  roundsWithoutTodo : nat;
  world : World
}.

(** Step 2: the [tool_use] blocks of the response, in order. *)
Definition toolCalls (blocks : list Block) : list Block :=
  filter (fun block => match block with ToolUse _ _ _ => true | _ => false end) blocks.

(** Step 4, the [for] loop over the tool calls, with the locals [results]
    and [usedTodo]. *)
Fixpoint run_tools (calls : list Block) (results : list Param) (usedTodo : bool)
    (w : World) : World * (Thrown + (list Param * bool)) :=
  match calls with
  | [] => (w, inr (results, usedTodo))
  | ToolUse id name input :: rest =>
      match executeTool name input w with
      | (w', inl e) => (w', inl e)
      | (w', inr output) =>
          run_tools rest (results ++ [ToolResult id output])
            (if name =? "todo_write" then true else usedTodo) w'
      end
  | _ :: rest => run_tools rest results usedTodo w
  end.

(** One turn of [while (true)] on the response the model gave: [inr false]
    when the loop returns, [inr true] when it goes on. *)
Definition turn (response : Response) (a : Agent) : Agent * (Thrown + bool) :=
  if negb (stop_reason response =? "tool_use") then
    (mkAgent (messages a ++ [Assistant (content response)]) (roundsWithoutTodo a) (world a),
     inr false)
  else
    match run_tools (toolCalls (content response)) [] false (world a) with
    | (w, inl e) => (mkAgent (messages a) (roundsWithoutTodo a) w, inl e)
    | (w, inr (results, usedTodo)) =>
        let rounds := if usedTodo then 0 else S (roundsWithoutTodo a) in
        let results :=
          if (10 <? rounds)%nat then TextParam NAG_REMINDER :: results else results in
        (mkAgent (messages a ++ [Assistant (content response); User results]) rounds w,
         inr true)
    end.

(** How a run of the loop stands once the model has given [responses]:
    returned, thrown, or waiting for the next response. *)
Inductive Outcome : Type :=
| Returned
| Threw (e : Thrown)
| Waiting.

(** [agentLoop(messages)], driven by what [client.messages.create] gives,
    call after call: a response, or a rejection. *)
Fixpoint agentLoop (responses : list (Thrown + Response)) (a : Agent) : Agent * Outcome :=
  match responses with
  | [] => (a, Waiting)
  | inl e :: _ => (a, Threw e)
  | inr response :: rest =>
      match turn response a with
      | (a', inl e) => (a', Threw e)
      | (a', inr false) => (a', Returned)
      | (a', inr true) => agentLoop rest a'
      end
  end.

End Tools.

Arguments mkAgent {World} _ _ _.
Arguments messages {World} _.
Arguments roundsWithoutTodo {World} _.
Arguments world {World} _.
Arguments run_tools {World} _ _ _ _ _.
Arguments turn {World} _ _ _.
Arguments agentLoop {World} _ _ _.

End AgentLoop.

(* ================================================================== *)
(** ** The [TodoManager] of the tutorial, [src/tutorial/src/v3_subagent.ts]
       (lines 160-205; the same class is in [v4_skills_agent.ts]) *)
(* ================================================================== *)

Module Tutorial.
Import Js TodoManager.

(** [item.k], without [?.]: on [null] and [undefined] the host throws. *)
Definition get (item : Value) (k : string) : Thrown + Value :=
  match item with
  | Undefined | Null => inl (TypeError no_properties)
  | _ => inr (optget item k)
  end.

Definition required (i : nat) : string :=
  "Item " ++ decimal i ++ ": content and activeForm required".

Definition invalid (i : nat) : string := "Item " ++ decimal i ++ ": invalid status".

Definition only_one : string := "Only one task can be in_progress".

Section Host.

(** [String.prototype.toLowerCase], of the host. *)
Variable toLowerCase : string -> string.

(** [v.toLowerCase()]. *)
Definition call_toLowerCase (v : Value) : Thrown + string :=
  match v with
  | Str s => inr (toLowerCase s)
  | _ => inl (TypeError not_a_function)
  end.

(** The [for] loop of [update], with the locals [validated] and [inProgress]. *)
Fixpoint for_items (rest : list Value) (i : nat)
    (validated : list TodoItem) (inProgress : nat) : Method (list TodoItem * nat) :=
  match rest with
  | [] => ret (validated, inProgress)
  | item :: rest' =>
      c <- lift (get item "content") ;;
      c <- lift (ToString (or_else c (Str ""))) ;;
      let content := trim c in
      s <- lift (get item "status") ;;
      status <- lift (call_toLowerCase (or_else s (Str "pending"))) ;;
      a <- lift (get item "activeForm") ;;
      a <- lift (ToString (or_else a (Str ""))) ;;
      let active := trim a in
      throw_if ((content =? "") || (active =? "")) (Error (required i)) ;;
      throw_if (negb (array_includes statuses status)) (Error (invalid i)) ;;
      let inProgress := if status =? "in_progress" then S inProgress else inProgress in
      for_items rest' (S i) (validated ++ [mkTodoItem content status active]) inProgress
  end.

(** The line of one record: its mark and its content. *)
Definition line (t : TodoItem) : string :=
  let mark :=
    if status t =? "completed" then "[x]"
    else if status t =? "in_progress" then "[>]"
    else "[ ]" in
  mark ++ " " ++ content t.

(** [render()]. *)
Definition render : Method string :=
  items <- get_items ;;
  if (List.length items =? 0)%nat then ret "No todos."
  else
    let lines := map line items in
    let done := List.length (filter (fun t => status t =? "completed") items) in
    ret (join LF lines
         ++ LF ++ "(" ++ decimal done ++ "/" ++ decimal (List.length items) ++ " done)").

(** [update(items)]; [validated.slice(0, 20)] is [firstn 20 validated]. *)
Definition update (items : list Value) : Method string :=
  r <- for_items items 0 [] 0 ;;
  let validated := fst r in
  let inProgress := snd r in
  throw_if (1 <? inProgress)%nat (Error only_one) ;;
  set_items (firstn 20 validated) ;;
  render.

(** The outcome of one turn of the loop for the record at index [i]. *)
Definition validate (i : nat) (item : Value) : Thrown + TodoItem :=
  match get item "content" with
  | inl e => inl e
  | inr c =>
      match ToString (or_else c (Str "")) with
      | inl e => inl e
      | inr c =>
          match call_toLowerCase (or_else (optget item "status") (Str "pending")) with
          | inl e => inl e
          | inr status =>
              match ToString (or_else (optget item "activeForm") (Str "")) with
              | inl e => inl e
              | inr a =>
                  if (trim c =? "") || (trim a =? "") then inl (Error (required i))
                  else if negb (array_includes statuses status) then inl (Error (invalid i))
                  else inr (mkTodoItem (trim c) status (trim a))
              end
          end
      end
  end.

End Host.

(** The view of a list, as [render] builds it. *)
Definition view (ts : list TodoItem) : string :=
  match ts with
  | [] => "No todos."
  | _ =>
      join LF (map line ts)
      ++ LF ++ "(" ++ decimal (List.length (filter (fun t => status t =? "completed") ts))
      ++ "/" ++ decimal (List.length ts) ++ " done)"
  end.

End Tutorial.

(* ================================================================== *)
(** ** [runEdit], of [tools/edit_file.ts] *)
(* ================================================================== *)

Module EditFile.
Import Js SafePath TodoTool.

(** [s] without its first [n] bytes. *)
Fixpoint drop (n : nat) (s : string) : string :=
  match n, s with
  | S n', String _ r => drop n' r
  | _, _ => s
  end.

(** The first occurrence of [old] in [s]: what is before it and what is
    after it. *)
Fixpoint find (old s : string) : option (string * string) :=
  if prefix old s then Some ("", drop (String.length old) s)
  else match s with
       | EmptyString => None
       | String a r =>
           match find old r with
           | Some (before, after) => Some (String a before, after)
           | None => None
           end
       end.

(** GetSubstitution of ECMAScript for a pattern that is a string, which
    captures nothing: in the replacement [$$] stands for a dollar, [$&] for
    what was matched, [$`] for what is before it and [$'] for what is after
    it; a dollar before anything else is a dollar. *)
Fixpoint substitute (matched before after template : string) : string :=
  match template with
  | EmptyString => EmptyString
  | String a r =>
      match r with
      | EmptyString => template
      | String c r' =>
          if Ascii.eqb a "$" then
            if Ascii.eqb c "$" then "$" ++ substitute matched before after r'
            else if Ascii.eqb c "`" then before ++ substitute matched before after r'
            else if Ascii.eqb c "&" then matched ++ substitute matched before after r'
            else if Ascii.eqb c "'" then after ++ substitute matched before after r'
            else String a (substitute matched before after r)
          else String a (substitute matched before after r)
      end
  end.

(** [s.replace(old, new)], [old] and [new] strings: the first occurrence
    only. *)
Definition replace (s old new : string) : string :=
  match find old s with
  | None => s
  | Some (before, after) => before ++ substitute old before after new ++ after
  end.

Section Files.

(** The files, [await Bun.file(path).text()] and [await Bun.write(path,
    data)], each of which answers or rejects. *)
Variable World : Type.
Variable text : string -> World -> World * (Thrown + string).
Variable write : string -> string -> World -> World * (Thrown + unit).

Variable WORKDIR : string.
Variable type_error_message : Refusal -> string.

(** [runEdit(path, oldText, newText)], on strings as its type says. *)
Definition runEdit (path oldText newText : string) (w : World) : World * string :=
  match safePath WORKDIR path with
  | inl error => (w, "错误：" ++ message type_error_message error)
  | inr safe =>
      match text safe w with
      | (w1, inl error) => (w1, "错误：" ++ message type_error_message error)
      | (w1, inr content) =>
          if negb (includes content oldText)
          then (w1, "错误：在 " ++ path ++ " 中未找到文本")
          else
            let newContent := replace content oldText newText in
            match write safe newContent w1 with
            | (w2, inl error) => (w2, "错误：" ++ message type_error_message error)
            | (w2, inr _) => (w2, "已编辑 " ++ path)
            end
      end
  end.

(** How [runEdit] ends once it has called [Bun.write]. *)
Definition finish (path : string) (r : World * (Thrown + unit)) : World * string :=
  match r with
  | (w2, inl error) => (w2, "错误：" ++ message type_error_message error)
  | (w2, inr _) => (w2, "已编辑 " ++ path)
  end.

End Files.

Arguments runEdit {World} _ _ _ _ _ _ _ _.
Arguments finish {World} _ _ _.

(** Files as a list of paths with their texts, the last written first; a
    file that is not there cannot be read. *)
Definition Disk : Type := list (string * string).

Fixpoint disk_text (path : string) (d : Disk) : Thrown + string :=
  match d with
  | [] => inl (Error ("ENOENT: no such file or directory, open '" ++ path ++ "'"))
  | (p, t) :: r => if p =? path then inr t else disk_text path r
  end.

Definition disk_read (path : string) (d : Disk) : Disk * (Thrown + string) :=
  (d, disk_text path d).

Definition disk_write (path data : string) (d : Disk) : Disk * (Thrown + unit) :=
  ((path, data) :: d, inr tt).

End EditFile.

(* ================================================================== *)
(** ** Branches and channels, of [src/scripts/version.ts] *)
(* ================================================================== *)

Module Version.
Import Js EditFile.

(** [isPreviewBranch(branch)]. *)
Definition isPreviewBranch (branch : string) : bool :=
  negb (branch =? "main") && negb (branch =? "master").

(** [getChannel(branch)]. *)
Definition getChannel (branch : string) : string :=
  if (branch =? "main") || (branch =? "master") then "latest"
  else if branch =? "dev" then "dev"
  else if branch =? "beta" then "beta"
  else if prefix "snapshot-" branch then replace branch "snapshot-" ""
  else "dev".

End Version.

(* ================================================================== *)
(** ** Lists of records, and [render] *)
(* ================================================================== *)

Import Js TodoManager Spec Stored TodoTool.
Open Scope list_scope.

(** Boolean tests on bytes as facts on their numeric values. *)
Ltac bool_to_nat :=
  unfold ws1, ws2, ws3, wordy, between, byte_is in *;
  repeat match goal with
         | H : (_ && _)%bool = true |- _ => apply andb_true_iff in H; destruct H
         | H : (_ <=? _)%nat = true |- _ => apply Nat.leb_le in H
         end.

(** From [lower_latin s = w] for a literal [w], the bytes of [s] one by
    one. *)
Ltac spell_out s H :=
  repeat (destruct s as [|? s]; cbn [lower_latin] in H;
          [discriminate H|injection H as ? H]);
  destruct s; [clear H|discriminate H].

Lemma in_progress_app ts us :
  in_progress (ts ++ us) = in_progress ts + in_progress us.
Proof.
  unfold in_progress. rewrite filter_app, length_app. reflexivity.
Qed.

Lemma in_progress_cons t ts :
  in_progress (t :: ts) = (if is_in_progress t then 1 else 0) + in_progress ts.
Proof.
  unfold in_progress. cbn [filter]. destruct (is_in_progress t); reflexivity.
Qed.


(** ** [render] *)

Lemma fold_push_lines ts :
  forall acc,
    fold_left (fun lines item => (lines ++ [line item])%list) ts acc
    = acc ++ map line ts.
Proof.
  induction ts as [|t ts IH]; intros acc; cbn.
  - rewrite app_nil_r. reflexivity.
  - rewrite IH, <- app_assoc. reflexivity.
Qed.

Lemma line_view_line t : line t = view_line t.
Proof. reflexivity. Qed.

Lemma append_assoc (a b c : string) : ((a ++ b) ++ c = a ++ b ++ c)%string.
Proof.
  induction a as [|x a IH]; cbn; [reflexivity|]. rewrite IH. reflexivity.
Qed.

(** Joining the lines and a last string with line feeds ends every line
    with a line feed and puts the last string after them. *)
Lemma join_lines_last ts last :
  join LF (map line ts ++ [last]) = (view_lines ts ++ last)%string.
Proof.
  induction ts as [|t ts IH]; [reflexivity|].
  cbn [map app view_lines]. unfold join in *. cbn [String.concat].
  destruct (map line ts ++ [last])%list eqn:E.
  - destruct (map line ts); discriminate.
  - rewrite IH, line_view_line, !append_assoc. reflexivity.
Qed.

Lemma render_view this : render this = (this, inr (view (items this))).
Proof.
  unfold render, bind, get_items, ret.
  destruct this as [ts]. cbn [items].
  destruct ts as [|t ts]; [reflexivity|].
  cbn [List.length Nat.eqb].
  rewrite fold_push_lines. cbn [app].
  rewrite join_lines_last.
  reflexivity.
Qed.

(* ================================================================== *)
(** ** Strings: what [trim] leaves alone *)
(* ================================================================== *)

Lemma lower_byte_small a :
  between 95 122 (lower_byte a) = true -> wordy a = true.
Proof.
  destruct a as [[] [] [] [] [] [] [] []]; vm_compute; congruence.
Qed.

Lemma wordy_ws1 a : wordy a = true -> ws1 a = false.
Proof.
  intros H. bool_to_nat.
  rewrite (proj2 (Nat.eqb_neq _ 32)) by lia.
  rewrite (proj2 (Nat.leb_gt (nat_of_ascii a) 13)) by lia.
  rewrite andb_false_r. reflexivity.
Qed.

Lemma wordy_is a n : wordy a = true -> 123 <= n -> byte_is n a = false.
Proof.
  intros H Hn. bool_to_nat. apply Nat.eqb_neq. lia.
Qed.

Lemma wordy_ws2 a b : wordy a = true -> ws2 a b = false /\ ws2 b a = false.
Proof.
  intros H. unfold ws2.
  rewrite !(wordy_is a) by (assumption || lia).
  rewrite andb_false_r. split; reflexivity.
Qed.

Lemma wordy_ws3 a b c : wordy a = true -> ws3 a b c = false /\ ws3 c b a = false.
Proof.
  intros H. unfold ws3.
  rewrite !(wordy_is a) by (assumption || lia).
  assert (between 128 138 a = false) as ->.
  { bool_to_nat. rewrite (proj2 (Nat.leb_gt 128 (nat_of_ascii a))) by lia. reflexivity. }
  rewrite ?andb_false_r, ?andb_false_l. split; reflexivity.
Qed.

(** Nothing is stripped from a string whose first byte starts no white space. *)
Lemma strip_head p2 p3 a r :
  ws1 a = false -> (forall b, p2 a b = false) -> (forall b c, p3 a b c = false) ->
  strip p2 p3 (String a r) = String a r.
Proof.
  intros H1 H2 H3. cbn [strip]. rewrite H1.
  destruct r as [|b r]; [reflexivity|]. rewrite H2.
  destruct r as [|c r]; [reflexivity|]. rewrite H3. reflexivity.
Qed.

Lemma reverse_reverse s : reverse (reverse s) = s.
Proof.
  unfold reverse.
  rewrite list_ascii_of_string_of_list_ascii, rev_involutive.
  apply string_of_list_ascii_of_string.
Qed.

Lemma trim_wordy_ends a r z q :
  wordy a = true -> reverse (String a r) = String z q -> wordy z = true ->
  trim (String a r) = String a r.
Proof.
  intros Ha Hrev Hz. unfold trim, trimStart, trimEnd.
  rewrite strip_head.
  - rewrite Hrev, strip_head.
    + rewrite <- Hrev. apply reverse_reverse.
    + apply wordy_ws1, Hz.
    + intros b. apply (wordy_ws2 z b Hz).
    + intros b c. apply (wordy_ws3 z b c Hz).
  - apply wordy_ws1, Ha.
  - intros b. apply (wordy_ws2 a b Ha).
  - intros b c. apply (wordy_ws3 a b c Ha).
Qed.

(** A string that lower-cases to a legal status has no white space at its
    ends: trimming it would change nothing. *)
Lemma latin_status_trimmed s :
  In (lower_latin s) statuses -> trim s = s.
Proof.
  intros [H|[H|[H|[]]]]; symmetry in H; spell_out s H;
    (eapply trim_wordy_ends; [| reflexivity |]);
    apply lower_byte_small;
    match goal with E : lower_byte ?a = _ |- context[lower_byte ?a] => rewrite E end;
    reflexivity.
Qed.

Lemma trim_empty : trim "" = "".
Proof. reflexivity. Qed.

(* ================================================================== *)
(** ** Membership *)
(* ================================================================== *)

Lemma In_array_includes l x : In x l -> array_includes l x = true.
Proof.
  intros H. unfold array_includes. apply existsb_exists.
  exists x. split; [exact H|apply String.eqb_refl].
Qed.

Lemma array_includes_In l x : array_includes l x = true -> In x l.
Proof.
  unfold array_includes. intros H. apply existsb_exists in H.
  destruct H as (y & Hy & E). apply String.eqb_eq in E. subst y. exact Hy.
Qed.


(* ================================================================== *)
(** ** More on [trim]: trimming twice *)
(* ================================================================== *)

Section Strip.

Variable p2 : ascii -> ascii -> bool.
Variable p3 : ascii -> ascii -> ascii -> bool.

Lemma strip_length_le :
  forall n s, String.length s <= n -> String.length (strip p2 p3 s) <= String.length s.
Proof.
  induction n as [|n IH]; intros s Hn.
  - destruct s; [cbn; lia|cbn in Hn; lia].
  - destruct s as [|a r]; [cbn; lia|]. cbn [String.length] in Hn.
    cbn [strip]. destruct (ws1 a).
    { specialize (IH r ltac:(lia)). cbn [String.length]. lia. }
    destruct r as [|b r2]; [lia|]. cbn [String.length] in *.
    destruct (p2 a b).
    { specialize (IH r2 ltac:(lia)). lia. }
    destruct r2 as [|c r3]; [cbn; lia|]. cbn [String.length] in *.
    destruct (p3 a b c); [|cbn; lia].
    specialize (IH r3 ltac:(lia)). lia.
Qed.

Lemma strip_le s : String.length (strip p2 p3 s) <= String.length s.
Proof. apply (strip_length_le (String.length s)). lia. Qed.

(** A string that [strip] leaves as it is starts with no white space. *)
Lemma strip_fixed_head a r :
  strip p2 p3 (String a r) = String a r ->
  ws1 a = false
  /\ forall b r2, r = String b r2 ->
       p2 a b = false /\ forall c r3, r2 = String c r3 -> p3 a b c = false.
Proof.
  intros H. cbn [strip] in H. destruct (ws1 a) eqn:E1.
  { pose proof (strip_le r) as L. rewrite H in L. cbn [String.length] in L. lia. }
  split; [reflexivity|]. intros b r2 ->. destruct (p2 a b) eqn:E2.
  { pose proof (strip_le r2) as L. rewrite H in L. cbn [String.length] in L. lia. }
  split; [reflexivity|]. intros c r3 ->. destruct (p3 a b c) eqn:E3; [|reflexivity].
  pose proof (strip_le r3) as L. rewrite H in L. cbn [String.length] in L. lia.
Qed.

Lemma strip_head_fixed a r :
  ws1 a = false ->
  (forall b r2, r = String b r2 ->
     p2 a b = false /\ forall c r3, r2 = String c r3 -> p3 a b c = false) ->
  strip p2 p3 (String a r) = String a r.
Proof.
  intros E1 H. cbn [strip]. rewrite E1.
  destruct r as [|b r2]; [reflexivity|].
  destruct (H b r2 eq_refl) as [E2 H']. rewrite E2.
  destruct r2 as [|c r3]; [reflexivity|].
  rewrite (H' c r3 eq_refl). reflexivity.
Qed.

Lemma strip_twice_bounded :
  forall n s, String.length s <= n -> strip p2 p3 (strip p2 p3 s) = strip p2 p3 s.
Proof.
  induction n as [|n IH]; intros s Hn.
  - destruct s; [reflexivity|cbn in Hn; lia].
  - destruct s as [|a r]; [reflexivity|]. cbn [String.length] in Hn.
    cbn [strip]. destruct (ws1 a) eqn:E1; [apply IH; lia|].
    destruct r as [|b r2]; [cbn [strip]; rewrite E1; reflexivity|].
    cbn [String.length] in Hn.
    destruct (p2 a b) eqn:E2; [apply IH; lia|].
    destruct r2 as [|c r3]; [cbn [strip]; rewrite E1, E2; reflexivity|].
    cbn [String.length] in Hn.
    destruct (p3 a b c) eqn:E3; [apply IH; lia|].
    cbn [strip]. rewrite E1, E2, E3. reflexivity.
Qed.

Lemma strip_twice s : strip p2 p3 (strip p2 p3 s) = strip p2 p3 s.
Proof. apply (strip_twice_bounded (String.length s)). lia. Qed.

(** What is left is the end of the string. *)
Lemma strip_is_suffix_bounded :
  forall n s, String.length s <= n -> exists pre, s = (pre ++ strip p2 p3 s)%string.
Proof.
  induction n as [|n IH]; intros s Hn.
  - destruct s; [exists ""; reflexivity|cbn in Hn; lia].
  - destruct s as [|a r]; [exists ""; reflexivity|]. cbn [String.length] in Hn.
    cbn [strip]. destruct (ws1 a).
    { destruct (IH r ltac:(lia)) as [pre E]. exists (String a pre).
      cbn [append]. rewrite <- E. reflexivity. }
    destruct r as [|b r2]; [exists ""; reflexivity|]. cbn [String.length] in Hn.
    destruct (p2 a b).
    { destruct (IH r2 ltac:(lia)) as [pre E]. exists (String a (String b pre)).
      cbn [append]. rewrite <- E. reflexivity. }
    destruct r2 as [|c r3]; [exists ""; reflexivity|]. cbn [String.length] in Hn.
    destruct (p3 a b c); [|exists ""; reflexivity].
    destruct (IH r3 ltac:(lia)) as [pre E].
    exists (String a (String b (String c pre))).
    cbn [append]. rewrite <- E. reflexivity.
Qed.

Lemma strip_is_suffix s : exists pre, s = (pre ++ strip p2 p3 s)%string.
Proof. apply (strip_is_suffix_bounded (String.length s)). lia. Qed.

(** The beginning of a string that [strip] leaves as it is, is left as it is. *)
Lemma strip_fixed_prefix x y :
  strip p2 p3 (x ++ y)%string = (x ++ y)%string -> strip p2 p3 x = x.
Proof.
  destruct x as [|a x1]; [reflexivity|]. cbn [append]. intros H.
  destruct (strip_fixed_head _ _ H) as [E1 H1].
  apply strip_head_fixed; [exact E1|].
  intros b x2 ->. destruct (H1 b (x2 ++ y)%string eq_refl) as [E2 H2].
  split; [exact E2|]. intros c x3 ->. exact (H2 c (x3 ++ y)%string eq_refl).
Qed.

End Strip.

Lemma list_ascii_app s t :
  list_ascii_of_string (s ++ t)%string = list_ascii_of_string s ++ list_ascii_of_string t.
Proof.
  induction s as [|a s IH]; [reflexivity|]. cbn. rewrite IH. reflexivity.
Qed.

Lemma string_of_list_app l m :
  string_of_list_ascii (l ++ m)
  = (string_of_list_ascii l ++ string_of_list_ascii m)%string.
Proof.
  induction l as [|a l IH]; [reflexivity|]. cbn. rewrite IH. reflexivity.
Qed.

Lemma reverse_app s t : reverse (s ++ t)%string = (reverse t ++ reverse s)%string.
Proof.
  unfold reverse. rewrite list_ascii_app, rev_app_distr. apply string_of_list_app.
Qed.

(** [trim] removes all there is to remove: trimming twice is trimming once. *)
Lemma trim_trim s : trim (trim s) = trim s.
Proof.
  assert (H : forall r, trimStart r = r -> trim (trimEnd r) = trimEnd r).
  { intros r Hr. unfold trimEnd.
    set (q := strip (fun b a => ws2 a b) (fun c b a => ws3 a b c) (reverse r)).
    assert (Hstart : trimStart (reverse q) = reverse q).
    { destruct (strip_is_suffix (fun b a => ws2 a b) (fun c b a => ws3 a b c)
                  (reverse r)) as [pre E]. fold q in E.
      apply (f_equal reverse) in E. rewrite reverse_reverse, reverse_app in E.
      unfold trimStart in *. apply (strip_fixed_prefix _ _ _ (reverse pre)).
      rewrite <- E. exact Hr. }
    unfold trim. rewrite Hstart. unfold trimEnd.
    rewrite reverse_reverse. unfold q. rewrite strip_twice. reflexivity. }
  unfold trim at 2 3. apply H. apply strip_twice.
Qed.

(* ================================================================== *)
(** ** Basic Latin *)
(* ================================================================== *)

Lemma lower_byte_basic a : between 0 127 (lower_byte a) = between 0 127 a.
Proof.
  destruct a as [[] [] [] [] [] [] [] []]; reflexivity.
Qed.

Lemma lower_latin_basic s : basic_latin (lower_latin s) = basic_latin s.
Proof.
  induction s as [|a s IH]; [reflexivity|].
  cbn [lower_latin basic_latin]. rewrite lower_byte_basic, IH. reflexivity.
Qed.

(** The case mapping of Basic Latin has what is assumed of the host. *)
Lemma lower_latin_lowers : lowers_basic_latin lower_latin.
Proof. intros s _. reflexivity. Qed.

Lemma lower_latin_apart : keeps_other_letters_apart lower_latin.
Proof. intros s H _. rewrite lower_latin_basic in H. exact H. Qed.

(* ================================================================== *)
(** ** [String(v)] throws nothing but a [TypeError] *)
(* ================================================================== *)

Lemma ToString_Array_cons e r x :
  ToString (Array (e :: r)) = inl x ->
  element_text e = inl x \/ ToString (Array r) = inl x.
Proof.
  cbn [ToString]. fold (element_text e).
  destruct (element_text e) as [y|s]; [intros H; inversion H; auto|].
  match goal with |- context [match ?f r with _ => _ end] => destruct (f r) as [y|ss] end;
    [intros H; inversion H; auto|discriminate].
Qed.

Lemma ToString_throws v : forall e, ToString v = inl e -> e = TypeError not_a_primitive.
Proof.
  induction v as [| |b|t|s|l IH|ps] using Value_elements_ind; intros e;
    try discriminate.
  - destruct b; discriminate.
  - induction IH as [|v l Hv _ IHl]; [discriminate|].
    intros H. destruct (ToString_Array_cons _ _ _ H) as [E|E]; [|exact (IHl E)].
    destruct v; try discriminate E; exact (Hv _ E).
  - cbn [ToString]. destruct (has_key "toString" ps); [|discriminate].
    intros H. inversion H. reflexivity.
Qed.

(* ================================================================== *)
(** ** The loop *)
(* ================================================================== *)

Section Host.

(** The [toLocaleLowerCase] of the host, and what some of the theorems
    assume of it. *)
Variable toLocaleLowerCase : string -> string.
Hypothesis latin : lowers_basic_latin toLocaleLowerCase.
Hypothesis apart : keeps_other_letters_apart toLocaleLowerCase.

Local Notation for_items := (TodoManager.for_items toLocaleLowerCase).
Local Notation update := (TodoManager.update toLocaleLowerCase).
Local Notation status_of := (Spec.status_of toLocaleLowerCase).
Local Notation validate := (Spec.validate toLocaleLowerCase).
Local Notation record_of := (Spec.record_of toLocaleLowerCase).
Local Notation records := (Spec.records toLocaleLowerCase).
Local Notation well_formed := (Spec.well_formed toLocaleLowerCase).
Local Notation after := (Stored.after toLocaleLowerCase).
Local Notation runTodo := (TodoTool.runTodo toLocaleLowerCase).

Lemma for_items_cons item rest i v n this :
  for_items (item :: rest) i v n this =
  match validate i item with
  | inl e => (this, inl e)
  | inr t =>
      for_items rest (S i) (v ++ [t]) (if is_in_progress t then S n else n) this
  end.
Proof.
  cbn [TodoManager.for_items].
  unfold Spec.validate, content_of, Spec.status_of, activeForm_of, trimmed,
    bind, lift, throw_if.
  destruct (ToString (or_else (optget item "content") _)) as [e|c]; [reflexivity|].
  destruct (call_toLocaleLowerCase _ _) as [e|st]; [reflexivity|].
  destruct (ToString (or_else (optget item "activeForm") _)) as [e|a]; [reflexivity|].
  destruct (trim c =? ""); [reflexivity|].
  destruct (array_includes statuses st); [|reflexivity].
  destruct (trim a =? ""); reflexivity.
Qed.

(** Whether a record passes does not depend on its index; only the text of
    what is thrown does. *)
Lemma validate_record_of i item t :
  validate i item = inr t <-> record_of item = Some t.
Proof.
  unfold Spec.record_of, Spec.validate.
  destruct (content_of item) as [e|c]; [split; discriminate|].
  destruct (status_of item) as [e|st]; [split; discriminate|].
  destruct (activeForm_of item) as [e|a]; [split; discriminate|].
  destruct (c =? ""); [split; discriminate|].
  destruct (negb (array_includes statuses st)); [split; discriminate|].
  destruct (a =? ""); [split; discriminate|].
  split; intros H; inversion H; reflexivity.
Qed.

Lemma validate_error_record_of i item e :
  validate i item = inl e -> record_of item = None.
Proof.
  unfold Spec.record_of, Spec.validate.
  destruct (content_of item) as [e'|c]; [reflexivity|].
  destruct (status_of item) as [e'|st]; [reflexivity|].
  destruct (activeForm_of item) as [e'|a]; [reflexivity|].
  destruct (c =? ""); [reflexivity|].
  destruct (negb (array_includes statuses st)); [reflexivity|].
  destruct (a =? ""); [reflexivity|discriminate].
Qed.

Lemma records_length items ts : records items ts -> List.length ts = List.length items.
Proof.
  intros H. symmetry. exact (Forall2_length H).
Qed.

(** A run of records that all pass only moves the locals of the loop. *)
Lemma for_items_records pre ts :
  records pre ts ->
  forall rest i v n this,
    for_items (pre ++ rest) i v n this =
    for_items rest (i + List.length pre) (v ++ ts) (n + in_progress ts) this.
Proof.
  induction 1 as [|item t pre ts Ht _ IH]; intros rest i v n this.
  - cbn. rewrite Nat.add_0_r, app_nil_r, Nat.add_0_r. reflexivity.
  - rewrite <- app_comm_cons, for_items_cons.
    apply (validate_record_of i) in Ht. rewrite Ht.
    rewrite IH, <- app_assoc. cbn [app List.length].
    rewrite in_progress_cons.
    f_equal; [lia|].
    destruct (is_in_progress t); lia.
Qed.

(** The loop never writes to [this]. *)
Lemma for_items_this rest :
  forall i v n this, fst (for_items rest i v n this) = this.
Proof.
  induction rest as [|item rest IH]; intros i v n this.
  - reflexivity.
  - rewrite for_items_cons.
    destruct (validate i item) as [e|t]; [reflexivity|apply IH].
Qed.

(** Either every record passes, or there is a first one that does not. *)
Lemma records_or_first_error items :
  (exists ts, records items ts)
  \/ (exists pre ts item post e,
        items = pre ++ item :: post /\ records pre ts
        /\ validate (List.length pre) item = inl e).
Proof.
  induction items as [|item items IH] using rev_ind.
  - left. exists []. constructor.
  - destruct IH as [[ts Hts]|(pre & ts & bad & post & e & -> & Hpre & He)].
    + destruct (validate (List.length items) item) as [e|t] eqn:Hv.
      * right. exists items, ts, item, [], e. auto.
      * left. exists (ts ++ [t]). apply Forall2_app; [exact Hts|].
        constructor; [|constructor].
        apply (validate_record_of (List.length items)). exact Hv.
    + right. exists pre, ts, bad, (post ++ [item]), e.
      rewrite <- app_assoc. auto.
Qed.

(** ** [update] *)

(** When every record passes, the outcome is decided by the two checks that
    follow the loop, the number of records first. *)
Lemma update_records items ts this :
  records items ts ->
  update items this =
  if (20 <? List.length ts)%nat then (this, inl (Error too_many))
  else if (1 <? in_progress ts)%nat then (this, inl (Error multiple_in_progress))
  else (mkTodoManager ts, inr (view ts)).
Proof.
  intros H. unfold TodoManager.update, bind.
  pose proof (for_items_records items ts H [] 0 [] 0 this) as E.
  rewrite app_nil_r in E. rewrite E. cbn [TodoManager.for_items ret app fst snd Nat.add].
  unfold throw_if.
  destruct (20 <? List.length ts)%nat; [reflexivity|].
  cbn [ret]. destruct (1 <? in_progress ts)%nat; [reflexivity|].
  cbn [ret set_items]. apply render_view.
Qed.

(** The first record that does not pass decides the outcome, whatever
    follows it. *)
Lemma update_first_error pre ts item post e this :
  records pre ts ->
  validate (List.length pre) item = inl e ->
  update (pre ++ item :: post) this = (this, inl e).
Proof.
  intros H He. unfold TodoManager.update, bind.
  rewrite (for_items_records pre ts H), for_items_cons.
  cbn [Nat.add]. rewrite He. reflexivity.
Qed.

(** What [update] does on any list at all: it throws and leaves [this] as it
    was, or every record passed and [this.items] is the whole new list. *)
Lemma update_outcome items this :
  (exists e, update items this = (this, inl e))
  \/ (exists ts, records items ts
                 /\ update items this = (mkTodoManager ts, inr (view ts))).
Proof.
  destruct (records_or_first_error items)
    as [[ts H]|(pre & ts & item & post & e & -> & H & He)].
  - rewrite (update_records items ts this H).
    destruct (20 <? List.length ts)%nat; [left; eauto|].
    destruct (1 <? in_progress ts)%nat; [left; eauto|].
    right. exists ts. auto.
  - left. exists e. apply (update_first_error pre ts item post e this H He).
Qed.

(** Two records with the same outcome at every index are interchangeable. *)
Lemma for_items_same x y post :
  (forall i, validate i x = validate i y) ->
  forall pre i v n this,
    for_items (pre ++ x :: post) i v n this = for_items (pre ++ y :: post) i v n this.
Proof.
  intros E pre. induction pre as [|item pre IH]; intros i v n this.
  - cbn [app]. rewrite !for_items_cons, E. reflexivity.
  - rewrite <- !app_comm_cons, !for_items_cons.
    destruct (validate i item); [reflexivity|apply IH].
Qed.

Lemma update_same x y pre post this :
  (forall i, validate i x = validate i y) ->
  update (pre ++ x :: post) this = update (pre ++ y :: post) this.
Proof.
  intros E. unfold TodoManager.update, bind. rewrite (for_items_same x y post E). reflexivity.
Qed.

(** ** The fields of one record *)

(** A string status that is not empty is lower-cased as it is. *)
Lemma status_of_string item s :
  optget item "status" = Str s -> s <> "" ->
  status_of item = inr (toLocaleLowerCase s).
Proof.
  intros E Hs. unfold Spec.status_of, or_else. rewrite E. cbn [truthy].
  apply String.eqb_neq in Hs. rewrite Hs. reflexivity.
Qed.

(** On a status of Basic Latin, or no status, the host does what the case
    mapping of Basic Latin does. *)
Lemma status_of_latin item :
  (forall s, optget item "status" = Str s -> basic_latin s = true) ->
  status_of item = Spec.status_of lower_latin item.
Proof.
  intros H. unfold Spec.status_of, or_else.
  destruct (truthy (optget item "status")).
  - destruct (optget item "status") as [| | | |s| |]; try reflexivity.
    cbn [call_toLocaleLowerCase]. rewrite (latin s (H s eq_refl)). reflexivity.
  - cbn [call_toLocaleLowerCase]. rewrite (latin "pending" eq_refl). reflexivity.
Qed.

Lemma validate_latin i item :
  (forall s, optget item "status" = Str s -> basic_latin s = true) ->
  validate i item = Spec.validate lower_latin i item.
Proof.
  intros H. unfold Spec.validate. rewrite (status_of_latin item H). reflexivity.
Qed.

Lemma record_of_latin item :
  (forall s, optget item "status" = Str s -> basic_latin s = true) ->
  record_of item = Spec.record_of lower_latin item.
Proof.
  intros H. unfold Spec.record_of. rewrite (validate_latin 0 item H). reflexivity.
Qed.

Lemma content_of_record c s a : content_of (record c s a) = inr (trim c).
Proof.
  unfold content_of, trimmed, record, or_else.
  cbn [optget lookup String.eqb Ascii.eqb Bool.eqb truthy].
  destruct c; reflexivity.
Qed.

Lemma activeForm_of_record c s a : activeForm_of (record c s a) = inr (trim a).
Proof.
  unfold activeForm_of, trimmed, record, or_else.
  cbn [optget lookup String.eqb Ascii.eqb Bool.eqb truthy].
  destruct a; reflexivity.
Qed.

Lemma status_of_record c s a : exists t, status_of (record c s a) = inr t.
Proof.
  unfold Spec.status_of, record, or_else.
  cbn [optget lookup String.eqb Ascii.eqb Bool.eqb truthy].
  destruct (negb (s =? "")); eexists; reflexivity.
Qed.

(** The three checks of one record, in their order, once its three fields
    are read. *)
Lemma validate_content i item s a :
  content_of item = inr "" -> status_of item = inr s -> activeForm_of item = inr a ->
  validate i item = inl (Error (need_content i)).
Proof.
  intros Hc Hs Ha. unfold Spec.validate. rewrite Hc, Hs, Ha. reflexivity.
Qed.

Lemma validate_status i item c s a :
  content_of item = inr c -> status_of item = inr s -> activeForm_of item = inr a ->
  c <> "" -> ~ In s statuses ->
  validate i item = inl (Error (invalid_status i s)).
Proof.
  intros Hc Hs Ha Hne Hin. unfold Spec.validate. rewrite Hc, Hs, Ha.
  apply String.eqb_neq in Hne. rewrite Hne.
  destruct (array_includes statuses s) eqn:E; [|reflexivity].
  destruct (Hin (array_includes_In _ _ E)).
Qed.

Lemma validate_activeForm i item c s :
  content_of item = inr c -> status_of item = inr s -> activeForm_of item = inr "" ->
  c <> "" -> In s statuses ->
  validate i item = inl (Error (need_activeForm i)).
Proof.
  intros Hc Hs Ha Hne Hin. unfold Spec.validate. rewrite Hc, Hs, Ha.
  apply String.eqb_neq in Hne. rewrite Hne, (In_array_includes _ _ Hin). reflexivity.
Qed.

Lemma trimmed_throws v e : trimmed v = inl e -> e = TypeError not_a_primitive.
Proof.
  unfold trimmed. destruct (ToString v) as [x|s] eqn:E; [|discriminate].
  intros H. inversion H; subst. apply (ToString_throws v e E).
Qed.

Lemma status_of_throws item e :
  status_of item = inl e -> e = TypeError not_a_function.
Proof.
  unfold Spec.status_of, call_toLocaleLowerCase.
  destruct (or_else _ _); try discriminate; intros H; inversion H; reflexivity.
Qed.

(** What one turn of the loop can throw: a [TypeError] of the host, or one
    of the three messages for its own index. *)
Lemma validate_thrown i item e :
  validate i item = inl e ->
  (exists refusal, e = TypeError refusal)
  \/ e = Error (need_content i)
  \/ (exists s, e = Error (invalid_status i s))
  \/ e = Error (need_activeForm i).
Proof.
  unfold Spec.validate.
  destruct (content_of item) as [x|c] eqn:Ec.
  { intros H. inversion H; subst. left. eexists. apply (trimmed_throws _ _ Ec). }
  destruct (status_of item) as [x|s] eqn:Es.
  { intros H. inversion H; subst. left. eexists. apply (status_of_throws _ _ Es). }
  destruct (activeForm_of item) as [x|a] eqn:Ea.
  { intros H. inversion H; subst. left. eexists. apply (trimmed_throws _ _ Ea). }
  destruct (c =? ""); [intros H; inversion H; auto|].
  destruct (negb (array_includes statuses s)); [intros H; inversion H; eauto|].
  destruct (a =? ""); [intros H; inversion H; auto|discriminate].
Qed.

(** A status that lower-cases to a legal one is a text of Basic Latin, so
    that the host did to it what the case mapping of Basic Latin does. *)
Lemma legal_status_latin s :
  In (toLocaleLowerCase s) statuses ->
  basic_latin s = true /\ toLocaleLowerCase s = lower_latin s.
Proof.
  intros H.
  assert (Hb : basic_latin s = true).
  { apply apart; destruct H as [H|[H|[H|[]]]]; rewrite <- H; reflexivity. }
  split; [exact Hb|exact (latin s Hb)].
Qed.

(** It has no white space at its ends: trimming it would change nothing. *)
Lemma legal_status_trimmed s : In (toLocaleLowerCase s) statuses -> trim s = s.
Proof.
  intros H. apply latin_status_trimmed.
  rewrite <- (proj2 (legal_status_latin s H)). exact H.
Qed.

Lemma legal_status_not_empty s : In (toLocaleLowerCase s) statuses -> s <> "".
Proof.
  intros H ->. rewrite (latin "" eq_refl) in H. cbn in H.
  repeat destruct H as [H|H]; try discriminate H. exact H.
Qed.

Lemma well_formed_record item t : well_formed item t -> record_of item = Some t.
Proof.
  intros (Hc & Hcn & Ha & Han & s & Hs & Hl & Hin).
  assert (Hne : s <> "") by (apply legal_status_not_empty; rewrite Hl; exact Hin).
  unfold Spec.record_of, Spec.validate.
  rewrite Hc, (status_of_string item s Hs Hne), Ha, Hl.
  apply String.eqb_neq in Hcn, Han. rewrite Hcn, Han.
  rewrite (In_array_includes _ _ Hin). destruct t; reflexivity.
Qed.

Lemma well_formed_records items ts : Forall2 well_formed items ts -> records items ts.
Proof.
  induction 1 as [|item t items ts H _ IH]; constructor;
    [apply well_formed_record, H|exact IH].
Qed.

(* ================================================================== *)
(** ** The claims *)
(* ================================================================== *)

(** C1.  A list of at most 20 records, at most one of them in progress, each
    with a content and an activeForm that are not empty once converted to
    text and trimmed and a status that is pending, in_progress or completed
    up to letter case, is accepted: [update] throws nothing, the stored list
    becomes the submitted records in the submitted order, their texts trimmed
    and their status in lower case, and the view returned (and rendered
    afterwards) is the view of exactly these records.  A record with status
    IN_PROGRESS can be exchanged for the same record with status in_progress
    in any list without changing what [update] does.  The host is assumed to
    lower-case Basic Latin as Basic Latin is. *)
Theorem update_accepts_well_formed_lists
    (this : TodoManager) (items : list Value) (ts : list TodoItem) :
  List.length items <= 20 ->
  in_progress ts <= 1 ->
  Forall2 well_formed items ts ->
  update items this = (mkTodoManager ts, inr (view ts))
  /\ render (mkTodoManager ts) = (mkTodoManager ts, inr (view ts))
  /\ (forall c a pre post that,
        update (pre ++ record c "IN_PROGRESS" a :: post) that
        = update (pre ++ record c "in_progress" a :: post) that).
Proof.
  intros Hlen Hone Hwf. split; [|split].
  - pose proof (well_formed_records items ts Hwf) as H.
    rewrite (update_records items ts this H), (records_length _ _ H).
    rewrite (proj2 (Nat.ltb_ge 20 _) Hlen), (proj2 (Nat.ltb_ge 1 _) Hone).
    reflexivity.
  - apply render_view.
  - intros c a pre post that. apply update_same. intros i.
    rewrite !validate_latin by (intros s E; inversion E; reflexivity).
    reflexivity.
Qed.

(** C2.  When [update] throws, whatever it throws and whatever was stored,
    the manager is left exactly as it was: the stored list is the same list,
    [render] returns the string it returned before and [count] the same
    number.  Nothing is written before the last check has passed. *)
Theorem failed_update_changes_nothing
    (this this' : TodoManager) (items : list Value) (e : Thrown) :
  update items this = (this', inl e) ->
  this' = this
  /\ TodoManager.items this' = TodoManager.items this
  /\ snd (render this') = snd (render this)
  /\ snd (count this') = snd (count this).
Proof.
  intros H.
  assert (E : this' = this).
  { destruct (update_outcome items this) as [[e' H']|(ts & _ & H')];
      rewrite H' in H; [|discriminate H].
    inversion H. reflexivity. }
  subst this'. repeat split; reflexivity.
Qed.

Lemma record_of_record c s a :
  basic_latin s = true ->
  record_of (record c s a) = Spec.record_of lower_latin (record c s a).
Proof.
  intros H. apply record_of_latin. intros s' E. inversion E; subst. exact H.
Qed.

(** C3, as the source has it.  [render] leaves the manager as it is and
    returns: for the empty list the sentinel; otherwise one line per record in
    stored order ([[x] content], [[>] content <- activeForm] or [[ ] content]),
    each ended by a line feed, then an empty line and the summary
    [(completed/total 已完成)], [completed] counting the records whose status is
    completed and [total] being the length of the list.  For the two records
    of scenario B the view is [[>] Write tests <- Writing tests], [[ ] Ship],
    an empty line and [(0/2 已完成)]. *)
Theorem render_is_the_view (this : TodoManager) :
  render this = (this, inr (view (items this)))
  /\ view [] = "没有待办事项。"
  /\ (forall t ts,
        view (t :: ts)
        = (view_lines (t :: ts) ++ LF ++ "(" ++ decimal (completed (t :: ts)) ++ "/"
             ++ decimal (List.length (t :: ts)) ++ " 已完成)")%string)
  /\ snd (update scenario_B this)
     = inr ("[>] Write tests <- Writing tests" ++ LF ++ "[ ] Ship" ++ LF ++ LF
            ++ "(0/2 已完成)")%string.
Proof.
  split; [apply render_view|]. split; [reflexivity|]. split; [reflexivity|].
  rewrite (update_records scenario_B
             [mkTodoItem "Write tests" "in_progress" "Writing tests";
              mkTodoItem "Ship" "pending" "Shipping"] this);
    [reflexivity|].
  repeat constructor; rewrite record_of_record; reflexivity.
Qed.

(** C4.  Twenty records that all pass, at most one of them in progress, are
    accepted and stored; twenty-one records that all pass are refused with
    the message of the too-many check, and the manager is left as it was. *)
Theorem twenty_accepted_twenty_one_refused
    (this : TodoManager) (items20 items21 : list Value) (ts20 ts21 : list TodoItem) :
  records items20 ts20 -> List.length items20 = 20 -> in_progress ts20 <= 1 ->
  records items21 ts21 -> List.length items21 = 21 ->
  update items20 this = (mkTodoManager ts20, inr (view ts20))
  /\ update items21 this = (this, inl (Error "最多允许20项待办事项")).
Proof.
  intros H20 L20 P20 H21 L21. split.
  - rewrite (update_records _ _ this H20), (records_length _ _ H20), L20.
    rewrite (proj2 (Nat.ltb_ge 1 _) P20). reflexivity.
  - rewrite (update_records _ _ this H21), (records_length _ _ H21), L21.
    reflexivity.
Qed.

(** C5.  A list of at most 20 records that all pass is accepted when exactly
    one of them is in progress, and refused with the message of the
    in-progress check, the manager left as it was, when two of them (or more)
    are. *)
Theorem one_in_progress_accepted_two_refused
    (this : TodoManager) (items1 items2 : list Value) (ts1 ts2 : list TodoItem) :
  records items1 ts1 -> List.length items1 <= 20 -> in_progress ts1 = 1 ->
  records items2 ts2 -> List.length items2 <= 20 -> 2 <= in_progress ts2 ->
  update items1 this = (mkTodoManager ts1, inr (view ts1))
  /\ update items2 this
     = (this, inl (Error "同一时间只能有一项任务进行中(in_progress)")).
Proof.
  intros H1 L1 P1 H2 L2 P2. split.
  - rewrite (update_records _ _ this H1), (records_length _ _ H1), P1.
    rewrite (proj2 (Nat.ltb_ge 20 _) L1). reflexivity.
  - rewrite (update_records _ _ this H2), (records_length _ _ H2).
    rewrite (proj2 (Nat.ltb_ge 20 _) L2), (proj2 (Nat.ltb_lt 1 _) P2). reflexivity.
Qed.

(** What is thrown while a field is read is what the turn throws: the
    content is read first, the status second, the activeForm last. *)
Lemma validate_content_throws i item e :
  content_of item = inl e -> validate i item = inl e.
Proof. intros H. unfold Spec.validate. rewrite H. reflexivity. Qed.

Lemma validate_status_throws i item c e :
  content_of item = inr c -> status_of item = inl e -> validate i item = inl e.
Proof. intros Hc H. unfold Spec.validate. rewrite Hc, H. reflexivity. Qed.

Lemma validate_activeForm_throws i item c s e :
  content_of item = inr c -> status_of item = inr s -> activeForm_of item = inl e ->
  validate i item = inl e.
Proof. intros Hc Hs H. unfold Spec.validate. rewrite Hc, Hs, H. reflexivity. Qed.

(** C6, amended.  The records are examined by increasing index and the first
    one that does not pass decides what is thrown.  For the record at index
    [i], all records before it having passed: its three fields are read, in
    the order content, status, activeForm, before the first check, and the
    first of them that cannot be read makes [update] throw what the host
    throws; when the three are read (the content and the activeForm converted
    to text, the status a string, or falsy), an empty content is reported
    first, then an illegal status, then an empty activeForm; the message
    carries [i] in decimal and, for the status, the value in lower case.  A
    record of three strings with content of three spaces at index 0 is refused
    with the missing-content message for index 0, and one with status blocked
    and a content that is not empty at index [i] with the invalid-status
    message for [i] and [blocked]. *)
Theorem first_failing_check_decides
    (this : TodoManager) (pre post : list Value) (ts : list TodoItem)
    (item : Value) (c' a' st : string) :
  records pre ts ->
  trim c' <> "" ->
  let i := List.length pre in
  (forall e, content_of item = inl e ->
             update (pre ++ item :: post) this = (this, inl e))
  /\ (forall c e, content_of item = inr c -> status_of item = inl e ->
                  update (pre ++ item :: post) this = (this, inl e))
  /\ (forall c s e, content_of item = inr c -> status_of item = inr s ->
                    activeForm_of item = inl e ->
                    update (pre ++ item :: post) this = (this, inl e))
  /\ (forall c s a,
        content_of item = inr c -> status_of item = inr s -> activeForm_of item = inr a ->
        (c = "" ->
         update (pre ++ item :: post) this
         = (this, inl (Error ("第 " ++ decimal i ++ " 项: 需要内容 (content)")%string)))
        /\ (c <> "" -> ~ In s statuses ->
            update (pre ++ item :: post) this
            = (this,
               inl (Error ("第 " ++ decimal i ++ " 项: 无效状态 '" ++ s ++ "'")%string)))
        /\ (c <> "" -> In s statuses -> a = "" ->
            update (pre ++ item :: post) this
            = (this, inl (Error ("第 " ++ decimal i ++ " 项: 需要 activeForm")%string))))
  /\ update (record "   " st a' :: post) this
     = (this, inl (Error "第 0 项: 需要内容 (content)"))
  /\ update (pre ++ record c' "blocked" a' :: post) this
     = (this, inl (Error ("第 " ++ decimal i ++ " 项: 无效状态 'blocked'")%string)).
Proof.
  intros Hpre Hc' i.
  split; [|split; [|split; [|split; [|split]]]].
  - intros e H. apply (update_first_error pre ts item post _ this Hpre).
    apply validate_content_throws, H.
  - intros c e Hc H. apply (update_first_error pre ts item post _ this Hpre).
    apply (validate_status_throws _ _ c e Hc H).
  - intros c s e Hc Hs H. apply (update_first_error pre ts item post _ this Hpre).
    apply (validate_activeForm_throws _ _ c s e Hc Hs H).
  - intros c s a Hc Hs Ha. split; [|split].
    + intros ->. apply (update_first_error pre ts item post _ this Hpre).
      apply (validate_content _ _ s a Hc Hs Ha).
    + intros E Hin. apply (update_first_error pre ts item post _ this Hpre).
      apply (validate_status _ _ c s a Hc Hs Ha E Hin).
    + intros E Hin ->. apply (update_first_error pre ts item post _ this Hpre).
      apply (validate_activeForm _ _ c s Hc Hs Ha E Hin).
  - destruct (status_of_record "   " st a') as [t Ht].
    apply (update_first_error [] [] _ post _ this); [constructor|].
    apply (validate_content 0 _ t (trim a')
             (content_of_record "   " st a' : content_of _ = inr "") Ht
             (activeForm_of_record _ _ _)).
  - apply (update_first_error pre ts _ post _ this Hpre).
    apply (validate_status _ _ (trim c') "blocked" (trim a')
             (content_of_record _ _ _)); [| apply activeForm_of_record
                                          | exact Hc' |].
    + rewrite status_of_latin by (intros s' E; inversion E; reflexivity). reflexivity.
    + cbn. intros [H|[H|[H|[]]]]; discriminate H.
Qed.

(** C9.  The two checks on the whole list come after the loop, the number of
    records first.  A record that fails its own checks, all records before it
    having passed, makes [update] throw what that record's turn throws,
    however many records and however many in-progress records the list has;
    and a list of more than 20 records that all pass is refused with the
    too-many message, however many of them are in progress. *)
Theorem per_record_errors_come_first
    (this : TodoManager) (pre post : list Value) (ts : list TodoItem)
    (item : Value) (e : Thrown) (items : list Value) (us : list TodoItem) :
  records pre ts ->
  validate (List.length pre) item = inl e ->
  records items us ->
  20 < List.length items ->
  update (pre ++ item :: post) this = (this, inl e)
  /\ e <> Error too_many
  /\ e <> Error multiple_in_progress
  /\ update items this = (this, inl (Error too_many)).
Proof.
  intros Hpre He Hitems Hlen. repeat apply conj.
  - apply (update_first_error pre ts item post e this Hpre He).
  - destruct (validate_thrown _ _ _ He) as [[r ->] | [-> | [[s ->] | ->]]]; discriminate.
  - destruct (validate_thrown _ _ _ He) as [[r ->] | [-> | [[s ->] | ->]]]; discriminate.
  - rewrite (update_records items us this Hitems), (records_length _ _ Hitems).
    rewrite (proj2 (Nat.ltb_lt 20 _) Hlen). reflexivity.
Qed.

Lemma records_middle items1 item items2 ts :
  records (items1 ++ item :: items2) ts -> exists t, record_of item = Some t.
Proof.
  intros H. apply Forall2_app_inv_l in H.
  destruct H as (l1 & l2 & _ & H & _).
  inversion H as [|x t l l' Ht]. exists t. exact Ht.
Qed.

(** A record whose status is not legal does not pass, whatever its other
    fields are. *)
Lemma illegal_status_never_passes item s :
  status_of item = inr s -> ~ In s statuses -> record_of item = None.
Proof.
  intros Hs Hbad. unfold Spec.record_of, Spec.validate. rewrite Hs.
  destruct (content_of item) as [e|c]; [reflexivity|].
  destruct (activeForm_of item) as [e|a]; [reflexivity|].
  destruct (c =? ""); [reflexivity|].
  destruct (array_includes statuses s) eqn:E; [|reflexivity].
  destruct (Hbad (array_includes_In _ _ E)).
Qed.


(** A status that is truthy and not a string has no [toLocaleLowerCase]: the
    call throws before any of the checks, even the one on the content. *)
Lemma wrong_typed_status_throws pre ts item post this c :
  records pre ts ->
  content_of item = inr c ->
  truthy (optget item "status") = true ->
  (forall s, optget item "status" <> Str s) ->
  update (pre ++ item :: post) this = (this, inl (TypeError not_a_function)).
Proof.
  intros Hpre Hc Ht Hs. apply (update_first_error pre ts item post _ this Hpre).
  unfold Spec.validate, Spec.status_of, or_else. rewrite Hc, Ht.
  destruct (optget item "status"); try reflexivity.
  destruct (Hs s eq_refl).
Qed.

(** C7, at the failing input.  With the number 5 as status, [update] throws
    the [TypeError] of the host, not the invalid-status message; the same
    holds with [true], an array or an object as status, and before an empty
    content is looked at.  The content and the activeForm of the same kind
    are coerced: the numbers 5 and 7 are stored as the strings 5 and 7. *)
Theorem number_status_throws_TypeError :
  update [fields (Str "Plan") (Number "5") (Str "Planning")] new
  = (new, inl (TypeError not_a_function))
  /\ update [fields (Str "Plan") (Boolean true) (Str "Planning")] new
     = (new, inl (TypeError not_a_function))
  /\ update [fields (Str "Plan") (Array [Str "pending"]) (Str "Planning")] new
     = (new, inl (TypeError not_a_function))
  /\ update [fields (Str "Plan") (Object []) (Str "Planning")] new
     = (new, inl (TypeError not_a_function))
  /\ update [fields (Str "") (Number "5") (Str "Planning")] new
     = (new, inl (TypeError not_a_function))
  /\ update [fields (Number "5") (Str "pending") (Number "7")] new
     = (mkTodoManager [mkTodoItem "5" "pending" "7"],
        inr ("[ ] 5" ++ LF ++ LF ++ "(0/1 已完成)")%string)
  /\ update [fields (Str "Plan") Undefined (Str "Planning")] new
     = (mkTodoManager [mkTodoItem "Plan" "pending" "Planning"],
        inr ("[ ] Plan" ++ LF ++ LF ++ "(0/1 已完成)")%string).
Proof.
  repeat apply conj; try reflexivity.
  - rewrite (update_records _ [mkTodoItem "5" "pending" "7"] new); [reflexivity|].
    repeat constructor. rewrite record_of_latin; [reflexivity|].
    intros s E. inversion E. reflexivity.
  - rewrite (update_records _ [mkTodoItem "Plan" "pending" "Planning"] new);
      [reflexivity|].
    repeat constructor. rewrite record_of_latin; [reflexivity|].
    intros s E. discriminate E.
Qed.

Lemma validate_fields_falsy_status c s a i :
  truthy s = false ->
  validate i (fields c s a) = validate i (fields c (Str "pending") a).
Proof.
  intros H.
  unfold Spec.validate, Spec.status_of, content_of, activeForm_of, fields, or_else.
  cbn [optget lookup String.eqb Ascii.eqb Bool.eqb]. rewrite H. reflexivity.
Qed.

(** C8, amended.  An empty string as status is taken as no status at all:
    the record is handled exactly like the one with status pending, and like
    the one with the status left out, in any list.  A string status that is
    not empty and is not one of the three once in lower case is refused with
    the invalid-status message, which quotes it in lower case, when the
    records before it pass, its content is converted to text and is not empty
    once trimmed, and its activeForm is converted to text. *)
Theorem empty_status_defaults_to_pending
    (this : TodoManager) (pre post : list Value) (ts : list TodoItem)
    (item : Value) (s c a : string) :
  records pre ts ->
  optget item "status" = Str s ->
  s <> "" ->
  ~ In (toLocaleLowerCase s) statuses ->
  content_of item = inr c ->
  c <> "" ->
  activeForm_of item = inr a ->
  (forall c a before after that,
      update (before ++ fields c (Str "") a :: after) that
      = update (before ++ fields c (Str "pending") a :: after) that
      /\ update (before ++ fields c (Str "") a :: after) that
         = update (before ++ fields c Undefined a :: after) that)
  /\ update (pre ++ item :: post) this
     = (this, inl (Error (invalid_status (List.length pre) (toLocaleLowerCase s)))).
Proof.
  intros Hpre Hs Hne Hbad Hc Hcn Ha. split.
  - intros c0 a0 before after that. split.
    + apply update_same. intros i. apply validate_fields_falsy_status. reflexivity.
    + apply update_same. intros i.
      rewrite !validate_fields_falsy_status by reflexivity. reflexivity.
  - apply (update_first_error pre ts item post _ this Hpre).
    apply (validate_status _ _ c _ a Hc (status_of_string item s Hs Hne) Ha Hcn Hbad).
Qed.

(* ================================================================== *)
(** ** The stored list *)
(* ================================================================== *)

(** X1.  [update] replaces, it does not merge: what it returns or throws does
    not depend on the list that was stored, and when it returns, neither does
    the list it stores.  On two managers the same call either throws the same
    thing and leaves each as it was, or leaves both with the same list and
    returns the same view. *)
Theorem update_replaces_the_whole_list (items : list Value) (this that : TodoManager) :
  (exists e, update items this = (this, inl e) /\ update items that = (that, inl e))
  \/ (exists ts, update items this = (mkTodoManager ts, inr (view ts))
                 /\ update items that = (mkTodoManager ts, inr (view ts))).
Proof.
  destruct (records_or_first_error items)
    as [[ts H]|(pre & ts & item & post & e & -> & H & He)].
  - rewrite !(update_records items ts _ H).
    destruct (20 <? List.length ts)%nat; [left; eauto|].
    destruct (1 <? in_progress ts)%nat; [left; eauto|].
    right. exists ts. auto.
  - left. exists e. rewrite !(update_first_error pre ts item post e _ H He). auto.
Qed.

Lemma record_of_kept item t : record_of item = Some t -> kept t = true.
Proof.
  unfold Spec.record_of, Spec.validate, content_of, activeForm_of, trimmed.
  destruct (ToString (or_else (optget item "content") _)) as [e|c]; [discriminate|].
  destruct (status_of item) as [e|st]; [discriminate|].
  destruct (ToString (or_else (optget item "activeForm") _)) as [e|a]; [discriminate|].
  destruct (trim c =? "") eqn:Ec; [discriminate|].
  destruct (array_includes statuses st) eqn:Es; [|discriminate]. cbn [negb].
  destruct (trim a =? "") eqn:Ea; [discriminate|].
  intros H. inversion H. unfold kept. cbn [status content activeForm].
  rewrite Es, Ec, Ea, !trim_trim, !String.eqb_refl. reflexivity.
Qed.

Lemma records_kept items ts : records items ts -> forallb kept ts = true.
Proof.
  induction 1 as [|item t items ts H _ IH]; [reflexivity|].
  cbn [forallb]. rewrite (record_of_kept item t H), IH. reflexivity.
Qed.

Lemma update_keeps_well items this :
  well_kept this = true -> well_kept (fst (update items this)) = true.
Proof.
  intros Hthis.
  destruct (records_or_first_error items)
    as [[ts H]|(pre & ts & item & post & e & -> & H & He)].
  - rewrite (update_records items ts this H).
    destruct (20 <? List.length ts)%nat eqn:E20; [exact Hthis|].
    destruct (1 <? in_progress ts)%nat eqn:E1; [exact Hthis|].
    unfold well_kept. cbn [fst TodoManager.items].
    apply Nat.ltb_ge in E20, E1.
    rewrite (proj2 (Nat.leb_le _ _) E20), (proj2 (Nat.leb_le _ _) E1).
    rewrite (records_kept items ts H). reflexivity.
  - rewrite (update_first_error pre ts item post e this H He). exact Hthis.
Qed.

(** X2.  The constraints hold of the stored list at all times.  Whatever
    lists are submitted to a new manager, one call after the other, and
    whether the calls return or throw, the manager holds at most 20 records,
    at most one of them in progress, each with a legal status in lower case
    and with a content and an activeForm that are not empty and are trimmed. *)
Theorem stored_list_is_always_well_kept (calls : list (list Value)) :
  well_kept (after calls new) = true.
Proof.
  unfold Stored.after.
  assert (H : forall this, well_kept this = true ->
                well_kept (fold_left (fun this items => fst (update items this))
                             calls this) = true).
  { induction calls as [|items calls IH]; intros this Hthis; [exact Hthis|].
    cbn [fold_left]. apply IH, update_keeps_well, Hthis. }
  apply H. reflexivity.
Qed.

Lemma legal_status_is_lower s : In s statuses -> toLocaleLowerCase s = s.
Proof.
  intros [<-|[<-|[<-|[]]]]; rewrite latin; reflexivity.
Qed.

Lemma record_of_resubmit t : kept t = true -> record_of (resubmit t) = Some t.
Proof.
  destruct t as [c s a]. unfold kept, resubmit. cbn [status content activeForm].
  intros H. repeat (apply andb_true_iff in H; destruct H as [H ?]).
  match goal with E : (trim a =? a) = true |- _ => apply String.eqb_eq in E; rename E into Ea end.
  match goal with E : (trim c =? c) = true |- _ => apply String.eqb_eq in E; rename E into Ec end.
  apply array_includes_In in H.
  unfold Spec.record_of, Spec.validate.
  rewrite (status_of_string (record c s a) s eq_refl)
    by (intros ->; cbn in H; repeat destruct H as [H|H]; discriminate || exact H).
  rewrite content_of_record, activeForm_of_record, Ec, Ea.
  rewrite (legal_status_is_lower s H), (In_array_includes _ _ H).
  repeat match goal with
         | E : negb (_ =? _) = true |- _ => apply negb_true_iff in E; rewrite E
         end.
  reflexivity.
Qed.

(** X3.  Sending the stored list back is accepted and changes nothing: on a
    manager whose list satisfies the constraints, [update] on the stored
    records, as they are, returns their view and leaves that very list. *)
Theorem resubmitting_the_stored_list_changes_nothing (this : TodoManager) :
  well_kept this = true ->
  update (map resubmit (items this)) this = (this, inr (view (items this))).
Proof.
  destruct this as [ts]. unfold well_kept. cbn [items]. intros H.
  apply andb_true_iff in H. destruct H as [H Hk].
  apply andb_true_iff in H. destruct H as [Hlen Hone].
  apply Nat.leb_le in Hlen, Hone.
  assert (Hrec : records (map resubmit ts) ts).
  { clear Hlen Hone. induction ts as [|t ts IH]; [constructor|].
    cbn [forallb] in Hk. apply andb_true_iff in Hk. destruct Hk as [Ht Hk].
    constructor; [apply record_of_resubmit, Ht|apply IH, Hk]. }
  rewrite (update_records _ ts _ Hrec).
  rewrite (proj2 (Nat.ltb_ge 20 _) Hlen), (proj2 (Nat.ltb_ge 1 _) Hone). reflexivity.
Qed.

(* ================================================================== *)
(** ** [runTodo] *)
(* ================================================================== *)

Lemma view_is_no_error ts : prefix "错误: " (view ts) = false.
Proof.
  destruct ts as [|t ts]; [reflexivity|].
  unfold view, view_with. cbn [view_lines]. unfold view_line.
  destruct (is_completed t); [reflexivity|].
  destruct (is_in_progress t); reflexivity.
Qed.

(** X4.  [runTodo] never throws and its answer tells failure from success.
    When [update] throws, the answer is the message of what was thrown after
    the prefix [错误: ] and the list is as it was; when [update] returns, the
    answer is the view of the new list, which never starts with that prefix. *)
Theorem runTodo_tells_failure_from_success
    (type_error_message : Refusal -> string) (items : list Value) (this : TodoManager) :
  (exists e, update items this = (this, inl e)
             /\ runTodo type_error_message items this
                = (this, inr ("错误: " ++ message type_error_message e)%string))
  \/ (exists ts, update items this = (mkTodoManager ts, inr (view ts))
                 /\ runTodo type_error_message items this
                    = (mkTodoManager ts, inr (view ts))
                 /\ prefix "错误: " (view ts) = false).
Proof.
  unfold TodoTool.runTodo, try_catch.
  destruct (update_outcome items this) as [[e H]|(ts & _ & H)]; rewrite H.
  - left. exists e. auto.
  - right. exists ts. split; [reflexivity|]. split; [reflexivity|].
    apply view_is_no_error.
Qed.

End Host.

(* ================================================================== *)
(** ** The claims on a host of Basic Latin

    [lower_latin] is a host function that satisfies both assumptions; on it
    [update] computes. *)
(* ================================================================== *)

Lemma update_accepts_well_formed_lists_witness :
  let items := [record " Write tests " "IN_PROGRESS" "Writing tests";
                record "Ship" "Pending" "Shipping";
                fields (Number "5") (Str "COMPLETED") (Array [Str "a"; Null; Number "7"])] in
  let ts := [mkTodoItem "Write tests" "in_progress" "Writing tests";
             mkTodoItem "Ship" "pending" "Shipping";
             mkTodoItem "5" "completed" "a,,7"] in
  List.length items <= 20
  /\ in_progress ts <= 1
  /\ Forall2 (well_formed lower_latin) items ts
  /\ update lower_latin items new
     = (mkTodoManager ts,
        inr ("[>] Write tests <- Writing tests" ++ LF ++ "[ ] Ship" ++ LF
             ++ "[x] 5" ++ LF ++ LF ++ "(1/3 已完成)")%string).
Proof.
  intros items ts.
  assert (Hlen : List.length items <= 20) by (vm_compute; lia).
  assert (Hone : in_progress ts <= 1) by (vm_compute; lia).
  assert (Hwf : Forall2 (well_formed lower_latin) items ts).
  { repeat apply Forall2_cons; try apply Forall2_nil;
      (split; [reflexivity|]); (split; [discriminate|]);
      (split; [reflexivity|]); (split; [discriminate|]);
      eexists; (split; [reflexivity|]); (split; [reflexivity|]);
      vm_compute; tauto. }
  split; [exact Hlen|]. split; [exact Hone|]. split; [exact Hwf|].
  exact (proj1 (update_accepts_well_formed_lists lower_latin lower_latin_lowers
                  new items ts Hlen Hone Hwf)).
Defined.

Lemma failed_update_changes_nothing_witness :
  let before := mkTodoManager [mkTodoItem "Ship" "completed" "Shipping"] in
  let items := [record "Plan" "pending" "Planning"; record "Build" "blocked" "Building"] in
  update lower_latin items before = (before, inl (Error "第 1 项: 无效状态 'blocked'"))
  /\ snd (render before) = inr ("[x] Ship" ++ LF ++ LF ++ "(1/1 已完成)")%string
  /\ snd (render (fst (update lower_latin items before))) = snd (render before)
  /\ snd (count (fst (update lower_latin items before))) = snd (count before).
Proof.
  intros before items.
  assert (H : update lower_latin items before
              = (before, inl (Error "第 1 项: 无效状态 'blocked'")))
    by reflexivity.
  split; [exact H|]. split; [reflexivity|].
  destruct (failed_update_changes_nothing lower_latin before
              (fst (update lower_latin items before)) items _
              (eq_trans (surjective_pairing _) (f_equal (pair _) (f_equal snd H))))
    as (_ & _ & Hr & Hc).
  split; [exact Hr|exact Hc].
Defined.

Lemma render_is_the_view_witness :
  lowers_basic_latin lower_latin
  /\ update lower_latin scenario_B new
     = (mkTodoManager [mkTodoItem "Write tests" "in_progress" "Writing tests";
                       mkTodoItem "Ship" "pending" "Shipping"],
        inr ("[>] Write tests <- Writing tests" ++ LF ++ "[ ] Ship" ++ LF ++ LF
             ++ "(0/2 已完成)")%string)
  /\ snd (update lower_latin scenario_B new)
     = inr ("[>] Write tests <- Writing tests" ++ LF ++ "[ ] Ship" ++ LF ++ LF
            ++ "(0/2 已完成)")%string.
Proof.
  split; [exact lower_latin_lowers|]. split; [reflexivity|].
  exact (proj2 (proj2 (proj2 (render_is_the_view lower_latin lower_latin_lowers new)))).
Defined.

(** C3, as it is worded, fails: the view of scenario B does not contain
    [(0/2 done)], and is not the view whose summary ends in [done]. *)
Lemma summary_does_not_say_done :
  exists out,
    snd (update lower_latin scenario_B new) = inr out
    /\ includes out "(0/2 done)" = false
    /\ out <> view_as_specified (items (fst (update lower_latin scenario_B new)))
    /\ includes out "[>] Write tests <- Writing tests" = true
    /\ includes out "[ ] Ship" = true.
Proof.
  eexists. split; [reflexivity|].
  split; [reflexivity|]. split; [|split; reflexivity].
  vm_compute. discriminate.
Qed.

Lemma twenty_accepted_twenty_one_refused_witness :
  let one := record "Plan" "pending" "Planning" in
  let t := mkTodoItem "Plan" "pending" "Planning" in
  let before := mkTodoManager [mkTodoItem "Ship" "completed" "Shipping"] in
  snd (count (fst (update lower_latin (repeat one 20) before))) = inr 20
  /\ update lower_latin (repeat one 21) before = (before, inl (Error too_many)).
Proof.
  intros one t before.
  destruct (twenty_accepted_twenty_one_refused lower_latin before
              (repeat one 20) (repeat one 21) (repeat t 20) (repeat t 21))
    as [H20 H21].
  - repeat constructor.
  - reflexivity.
  - vm_compute. lia.
  - repeat constructor.
  - reflexivity.
  - split; [rewrite H20; reflexivity|exact H21].
Defined.

Lemma one_in_progress_accepted_two_refused_witness :
  let a := record "Plan" "in_progress" "Planning" in
  let b := record "Build" "In_Progress" "Building" in
  let c := record "Ship" "pending" "Shipping" in
  snd (update lower_latin [a; c] new)
  = inr ("[>] Plan <- Planning" ++ LF ++ "[ ] Ship" ++ LF ++ LF ++ "(0/2 已完成)")%string
  /\ update lower_latin [a; c; b] new = (new, inl (Error multiple_in_progress)).
Proof.
  intros a b c.
  destruct (one_in_progress_accepted_two_refused lower_latin new [a; c] [a; c; b]
              [mkTodoItem "Plan" "in_progress" "Planning";
               mkTodoItem "Ship" "pending" "Shipping"]
              [mkTodoItem "Plan" "in_progress" "Planning";
               mkTodoItem "Ship" "pending" "Shipping";
               mkTodoItem "Build" "in_progress" "Building"])
    as [H1 H2].
  - repeat constructor.
  - vm_compute. lia.
  - reflexivity.
  - repeat constructor.
  - vm_compute. lia.
  - vm_compute. lia.
  - split; [rewrite H1; reflexivity|exact H2].
Defined.

(** C6, as it is worded, fails.  A record at index 0 whose content is three
    spaces is not always refused with the missing-content message: the three
    fields are read and converted before the first check, and when the
    activeForm is an object that cannot be converted to text, or the status
    is a number, [update] throws the [TypeError] of the host instead. *)
Lemma a_field_that_cannot_be_read_comes_before_the_checks :
  update lower_latin
    [fields (Str "   ") (Str "pending") (Object [("toString", Number "1")])] new
  = (new, inl (TypeError not_a_primitive))
  /\ update lower_latin [fields (Str "   ") (Number "5") (Str "Planning")] new
     = (new, inl (TypeError not_a_function))
  /\ update lower_latin
       [fields (Str "   ") (Str "pending") (Object [("toString", Number "1")])] new
     <> (new, inl (Error "第 0 项: 需要内容 (content)"))
  /\ update lower_latin [fields (Str "   ") (Number "5") (Str "Planning")] new
     <> (new, inl (Error "第 0 项: 需要内容 (content)")).
Proof.
  split; [reflexivity|]. split; [reflexivity|]. split; vm_compute; discriminate.
Qed.

Lemma first_failing_check_decides_witness :
  let pre := [record "Plan" "completed" "Planning"] in
  let odd := fields (Str "Build") (Str "pending") (Object [("toString", Number "1")]) in
  update lower_latin (pre ++ record "  " "pending" "" :: [record "" "" ""]) new
  = (new, inl (Error "第 1 项: 需要内容 (content)"))
  /\ update lower_latin (pre ++ record "Build" "blocked" "Building" :: [Null]) new
     = (new, inl (Error "第 1 项: 无效状态 'blocked'"))
  /\ update lower_latin (pre ++ odd :: [Null]) new
     = (new, inl (TypeError not_a_primitive)).
Proof.
  intros pre odd.
  assert (Hpre : records lower_latin pre [mkTodoItem "Plan" "completed" "Planning"])
    by (repeat constructor).
  assert (Hc : trim "Build" <> "") by (vm_compute; discriminate).
  split; [|split].
  - destruct (first_failing_check_decides lower_latin lower_latin_lowers
                new pre [record "" "" ""] _ (record "  " "pending" "")
                "Build" "Building" "pending" Hpre Hc) as (_ & _ & _ & H & _).
    exact (proj1 (H "" "pending" "" eq_refl eq_refl eq_refl) eq_refl).
  - exact (proj2 (proj2 (proj2 (proj2 (proj2
             (first_failing_check_decides lower_latin lower_latin_lowers
                new pre [Null] _ (record "  " "pending" "")
                "Build" "Building" "pending" Hpre Hc)))))).
  - destruct (first_failing_check_decides lower_latin lower_latin_lowers
                new pre [Null] _ odd "Build" "Building" "pending" Hpre Hc)
      as (_ & _ & H & _).
    exact (H "Build" "pending" _ eq_refl eq_refl eq_refl).
Defined.

Lemma per_record_errors_come_first_witness :
  let busy := record "Build" "in_progress" "Building" in
  let bad := record "Ship" "done" "Shipping" in
  List.length (busy :: bad :: repeat busy 20) = 22
  /\ update lower_latin (busy :: bad :: repeat busy 20) new
     = (new, inl (Error "第 1 项: 无效状态 'done'"))
  /\ update lower_latin (repeat busy 21) new = (new, inl (Error "最多允许20项待办事项")).
Proof.
  intros busy bad.
  destruct (per_record_errors_come_first lower_latin new [busy] (repeat busy 20)
              [mkTodoItem "Build" "in_progress" "Building"] bad
              (Error "第 1 项: 无效状态 'done'") (repeat busy 21)
              (repeat (mkTodoItem "Build" "in_progress" "Building") 21))
    as (H1 & _ & _ & H2).
  - repeat constructor.
  - reflexivity.
  - repeat constructor.
  - vm_compute. lia.
  - split; [reflexivity|]. split; [exact H1|exact H2].
Defined.


Lemma number_status_throws_TypeError_witness :
  lowers_basic_latin lower_latin
  /\ update lower_latin [fields (Str "Plan") (Number "5") (Str "Planning")] new
     = (new, inl (TypeError not_a_function))
  /\ update lower_latin [fields (Str "") (Number "5") (Str "Planning")] new
     = (new, inl (TypeError not_a_function))
  /\ update lower_latin [fields (Number "5") (Str "pending") (Number "7")] new
     = (mkTodoManager [mkTodoItem "5" "pending" "7"],
        inr ("[ ] 5" ++ LF ++ LF ++ "(0/1 已完成)")%string).
Proof.
  destruct (number_status_throws_TypeError lower_latin lower_latin_lowers)
    as (H1 & _ & _ & _ & H5 & H6 & _).
  split; [exact lower_latin_lowers|]. split; [exact H1|]. split; [exact H5|exact H6].
Defined.

(** C8, as it is worded, fails: a record whose status is the empty string is
    stored as pending. *)
Lemma empty_status_is_accepted :
  update lower_latin [record "Plan" "" "Planning"] new
  = (mkTodoManager [mkTodoItem "Plan" "pending" "Planning"],
     inr ("[ ] Plan" ++ LF ++ LF ++ "(0/1 已完成)")%string).
Proof. reflexivity. Qed.

Lemma empty_status_defaults_to_pending_witness :
  let pre := [record "Plan" "" "Planning"] in
  record_of lower_latin (record "Plan" "" "Planning")
  = Some (mkTodoItem "Plan" "pending" "Planning")
  /\ update lower_latin (pre ++ record "Build" "blocked" "Building" :: []) new
     = (new, inl (Error "第 1 项: 无效状态 'blocked'"))
  /\ update lower_latin ([] ++ fields (Str "Plan") (Str "") (Str "Planning") :: []) new
     = update lower_latin
         ([] ++ fields (Str "Plan") (Str "pending") (Str "Planning") :: []) new.
Proof.
  intros pre.
  destruct (empty_status_defaults_to_pending lower_latin new pre []
              [mkTodoItem "Plan" "pending" "Planning"]
              (record "Build" "blocked" "Building") "blocked" "Build" "Building")
    as [H1 H2].
  - repeat constructor.
  - reflexivity.
  - discriminate.
  - vm_compute. intros [H|[H|[H|[]]]]; discriminate H.
  - reflexivity.
  - discriminate.
  - reflexivity.
  - split; [reflexivity|]. split; [exact H2|].
    exact (proj1 (H1 (Str "Plan") (Str "Planning") [] [] new)).
Defined.

Lemma resubmitting_the_stored_list_changes_nothing_witness :
  let this := fst (update lower_latin [record " Plan " "COMPLETED" "Planning";
                                       record "Build" "in_progress" " Building"] new) in
  well_kept this = true
  /\ items this = [mkTodoItem "Plan" "completed" "Planning";
                   mkTodoItem "Build" "in_progress" "Building"]
  /\ update lower_latin (map resubmit (items this)) this = (this, inr (view (items this))).
Proof.
  intros this.
  assert (H : well_kept this = true) by reflexivity.
  split; [exact H|]. split; [reflexivity|].
  exact (resubmitting_the_stored_list_changes_nothing lower_latin lower_latin_lowers
           this H).
Defined.
(* ================================================================== *)
(** ** [safePath] *)
(* ================================================================== *)

Import SafePath.

Lemma is_slash_eq a : is_slash a = true -> a = "/"%char.
Proof.
  unfold is_slash, byte_is. intros H. apply Nat.eqb_eq in H.
  rewrite <- (ascii_nat_embedding a), H. reflexivity.
Qed.

Lemma is_slash_dec a : is_slash a = if ascii_dec "/"%char a then true else false.
Proof.
  destruct (ascii_dec "/"%char a) as [<-|N]; [reflexivity|].
  destruct (is_slash a) eqn:E; [|reflexivity].
  destruct (N (eq_sym (is_slash_eq a E))).
Qed.

Lemma includes_double_slash s : includes s "//" = double_slash s.
Proof.
  induction s as [|a r IH]; [reflexivity|].
  cbn [includes double_slash]. rewrite IH.
  destruct r as [|b r2].
  - cbn [prefix]. destruct (ascii_dec "/"%char a); reflexivity.
  - cbn [prefix]. rewrite !is_slash_dec.
    destruct (ascii_dec "/"%char a), (ascii_dec "/"%char b);
      try reflexivity; destruct r2; reflexivity.
Qed.

(** [collapse] keeps the first character. *)
Lemma collapse_head a r : exists u, collapse (String a r) = String a u.
Proof.
  revert a. induction r as [|b r IH]; intros a.
  - exists "". reflexivity.
  - cbn [collapse]. fold (collapse (String b r)).
    destruct (is_slash a && is_slash b) eqn:E.
    + apply andb_true_iff in E. destruct E as [Ea Eb].
      rewrite (is_slash_eq a Ea), <- (is_slash_eq b Eb). apply IH.
    + eexists. reflexivity.
Qed.

Lemma collapse_cons a b r :
  collapse (String a (String b r))
  = if is_slash a && is_slash b then collapse (String b r)
    else String a (collapse (String b r)).
Proof. reflexivity. Qed.

Lemma double_slash_cons a b r :
  double_slash (String a (String b r))
  = (is_slash a && is_slash b) || double_slash (String b r).
Proof. reflexivity. Qed.

(** No two slashes follow each other in what [collapse] gives. *)
Lemma collapse_single s : double_slash (collapse s) = false.
Proof.
  induction s as [|a r IH]; [reflexivity|].
  destruct r as [|b r2]; [reflexivity|].
  rewrite collapse_cons. destruct (is_slash a && is_slash b) eqn:E; [exact IH|].
  destruct (collapse_head b r2) as [u Hu]. rewrite Hu in *.
  rewrite double_slash_cons, E, IH. reflexivity.
Qed.

(** What has no two slashes in a row is left as it is. *)
Lemma collapse_fixed s : double_slash s = false -> collapse s = s.
Proof.
  induction s as [|a r IH]; [reflexivity|].
  destruct r as [|b r2]; [reflexivity|].
  rewrite double_slash_cons, collapse_cons. intros H.
  apply orb_false_iff in H. destruct H as [E H]. rewrite E, (IH H). reflexivity.
Qed.

Lemma prefix_single w : forall s, prefix w s = true -> double_slash s = false ->
  double_slash w = false.
Proof.
  induction w as [|a w IH]; intros s Hp Hs; [reflexivity|].
  destruct s as [|a' s]; [discriminate Hp|]. cbn [prefix] in Hp.
  destruct (ascii_dec a a') as [<-|]; [|discriminate Hp].
  destruct w as [|b w]; [reflexivity|].
  destruct s as [|b' s]; [discriminate Hp|].
  assert (Hb : b = b').
  { cbn [prefix] in Hp. destruct (ascii_dec b b'); [assumption|discriminate Hp]. }
  subst b'. rewrite double_slash_cons in *.
  apply orb_false_iff in Hs. destruct Hs as [E Hs].
  rewrite E. exact (IH _ Hp Hs).
Qed.

Lemma prefix_app w t : prefix w (w ++ t)%string = true.
Proof.
  induction w as [|a w IH]; [destruct t; reflexivity|].
  cbn [append prefix]. destruct (ascii_dec a a) as [_|N]; [exact IH|destruct (N eq_refl)].
Qed.

(** After a working directory with no two slashes in a row, [collapse] only
    works on what follows it. *)
Lemma collapse_after w :
  double_slash w = false ->
  forall t, exists u, collapse (w ++ String "/" t)%string = (w ++ u)%string.
Proof.
  induction w as [|a w IH]; intros H t; [eexists; reflexivity|].
  destruct w as [|b w].
  - cbn [append]. rewrite collapse_cons.
    destruct (is_slash a && is_slash "/") eqn:E.
    + apply andb_true_iff in E. destruct E as [Ea _].
      rewrite (is_slash_eq a Ea). apply collapse_head.
    + eexists. reflexivity.
  - rewrite double_slash_cons in H. apply orb_false_iff in H. destruct H as [E H].
    destruct (IH H t) as [u Hu].
    cbn [append] in *. rewrite collapse_cons, E, Hu. eexists. reflexivity.
Qed.

(** X5.  Whether [safePath] accepts a path is decided by the working
    directory alone, never by the path: it throws for every path when two
    slashes follow each other in [WORKDIR], and for no path otherwise, when
    it returns [WORKDIR/path] with every run of slashes made one slash. *)
Theorem safePath_never_looks_at_the_path (WORKDIR path : string) :
  safePath WORKDIR path
  = if includes WORKDIR "//"
    then inl (Error ("路径超出工作区: " ++ path)%string)
    else inr (collapse (WORKDIR ++ "/" ++ path)%string).
Proof.
  unfold safePath. rewrite includes_double_slash.
  destruct (double_slash WORKDIR) eqn:E.
  - destruct (prefix WORKDIR (collapse (WORKDIR ++ "/" ++ path)%string)) eqn:P;
      [|reflexivity].
    rewrite (prefix_single _ _ P (collapse_single _)) in E. discriminate E.
  - destruct (collapse_after WORKDIR E path) as [u Hu].
    change ("/" ++ path)%string with (String "/" path).
    rewrite Hu, prefix_app. reflexivity.
Qed.

(** X6.  [safePath] resolves nothing.  When no two slashes follow each other
    in [WORKDIR/path], the path is returned as it is after [WORKDIR/], its
    [..] segments included. *)
Theorem safePath_keeps_the_path_verbatim (WORKDIR path : string) :
  includes (WORKDIR ++ "/" ++ path)%string "//" = false ->
  safePath WORKDIR path = inr (WORKDIR ++ "/" ++ path)%string.
Proof.
  intros H. rewrite includes_double_slash in H.
  rewrite safePath_never_looks_at_the_path, includes_double_slash.
  rewrite (prefix_single WORKDIR _ (prefix_app WORKDIR _) H).
  rewrite (collapse_fixed _ H). reflexivity.
Qed.

Lemma safePath_keeps_the_path_verbatim_witness :
  includes ("/home/me/project" ++ "/" ++ "../../../etc/passwd")%string "//" = false
  /\ safePath "/home/me/project" "../../../etc/passwd"
     = inr "/home/me/project/../../../etc/passwd".
Proof.
  split; [reflexivity|].
  exact (safePath_keeps_the_path_verbatim "/home/me/project" "../../../etc/passwd"
           eq_refl).
Defined.

(* ================================================================== *)
(** ** The agent loop *)
(* ================================================================== *)

Import AgentLoop.

Lemma ids_toolCalls blocks : ids (toolCalls blocks) = ids blocks.
Proof.
  unfold ids, toolCalls.
  induction blocks as [|[t|id name input|] blocks IH]; cbn; rewrite ?IH; reflexivity.
Qed.

Lemma uses_todo_toolCalls blocks : uses_todo (toolCalls blocks) = uses_todo blocks.
Proof.
  unfold uses_todo, toolCalls.
  induction blocks as [|[t|id name input|] blocks IH]; cbn; rewrite ?IH; reflexivity.
Qed.

Lemma result_ids_app ps qs : result_ids (ps ++ qs) = result_ids ps ++ result_ids qs.
Proof. unfold result_ids. apply flat_map_app. Qed.

Section Loop.

Variable World : Type.
Variable executeTool : string -> Value -> World -> World * (Thrown + string).

(** The [for] loop over the tool calls adds one result per call, in order,
    and remembers whether a call was named [todo_write]. *)
Lemma run_tools_results calls :
  forall acc used w w' results used',
    run_tools executeTool calls acc used w = (w', inr (results, used')) ->
    exists new,
      results = acc ++ new
      /\ result_ids new = ids calls
      /\ Forall is_result new
      /\ used' = used || uses_todo calls.
Proof.
  induction calls as [|[t|id name input|] calls IH]; intros acc used w w' results used' H.
  - inversion H; subst. exists []. rewrite app_nil_r, orb_false_r. auto.
  - cbn [run_tools] in H. destruct (IH _ _ _ _ _ _ H) as (new & ? & ? & ? & ?).
    exists new. auto.
  - cbn [run_tools] in H. destruct (executeTool name input w) as [w1 [e|output]];
      [discriminate H|].
    destruct (IH _ _ _ _ _ _ H) as (new & -> & Hids & Hall & ->).
    exists (ToolResult id output :: new). rewrite <- app_assoc. split; [reflexivity|].
    split; [unfold result_ids, ids in *; cbn; rewrite Hids; reflexivity|].
    split; [constructor; [exists id, output; reflexivity|exact Hall]|].
    cbn [uses_todo existsb]. fold (uses_todo calls).
    destruct (name =? "todo_write"), used; reflexivity.
  - cbn [run_tools] in H. destruct (IH _ _ _ _ _ _ H) as (new & ? & ? & ? & ?).
    exists new. auto.
Qed.

Lemma nagged_results (c : bool) new :
  Forall is_result new ->
  nagged (User (if c then TextParam NAG_REMINDER :: new else new)) = c.
Proof.
  intros H. destruct c; [apply String.eqb_refl|].
  destruct H as [|p new (id & output & ->) _]; reflexivity.
Qed.

(** A turn on a response that asks for tools, when every tool answers. *)
Lemma turn_goes_on response (a a' : Agent World) (again : bool) :
  stop_reason response = "tool_use" ->
  turn executeTool response a = (a', inr again) ->
  again = true
  /\ roundsWithoutTodo a'
     = (if uses_todo (content response) then 0 else S (roundsWithoutTodo a))
  /\ exists params,
       messages a' = messages a ++ [Assistant (content response); User params]
       /\ result_ids params = ids (content response)
       /\ nagged (User params) = (10 <? roundsWithoutTodo a')%nat.
Proof.
  intros Hstop H. unfold turn in H. rewrite Hstop, String.eqb_refl in H.
  cbn [negb] in H.
  destruct (run_tools executeTool (toolCalls (content response)) [] false (world a))
    as [w [e|[results used]]] eqn:E; [discriminate H|].
  destruct (run_tools_results _ _ _ _ _ _ _ E) as (new & -> & Hids & Hall & ->).
  rewrite ids_toolCalls in Hids. rewrite uses_todo_toolCalls in H.
  cbn [app orb] in H. inversion H; subst; clear H. cbn [roundsWithoutTodo messages].
  split; [reflexivity|]. split; [reflexivity|]. eexists. split; [reflexivity|].
  split; [|apply nagged_results, Hall].
  destruct (10 <? _)%nat; [cbn|]; exact Hids.
Qed.

End Loop.

Lemma reminders_app ms ns : reminders (ms ++ ns) = reminders ms ++ reminders ns.
Proof. unfold reminders. rewrite filter_app, map_app. reflexivity. Qed.

Lemma reminders_round blocks params :
  reminders [Assistant blocks; User params] = [nagged (User params)].
Proof. reflexivity. Qed.

Lemma turn_throws World executeTool response (a a' : Agent World) e :
  turn executeTool response a = (a', inl e) ->
  messages a' = messages a /\ roundsWithoutTodo a' = roundsWithoutTodo a.
Proof.
  unfold turn. destruct (negb (stop_reason response =? "tool_use")); [discriminate|].
  destruct (run_tools _ _ _ _ _) as [w [e'|[results used]]]; [|discriminate].
  intros H. inversion H. auto.
Qed.

Lemma turn_returns World executeTool response (a a' : Agent World) again :
  stop_reason response <> "tool_use" ->
  turn executeTool response a = (a', inr again) ->
  again = false
  /\ messages a' = messages a ++ [Assistant (content response)]
  /\ roundsWithoutTodo a' = roundsWithoutTodo a.
Proof.
  intros Hstop. unfold turn. apply String.eqb_neq in Hstop. rewrite Hstop. cbn [negb].
  intros H. inversion H. auto.
Qed.



(** X8.  The reminder comes with the eleventh round without [todo_write].
    Over rounds that all ask for tools, none of them [todo_write], and in
    which every tool answers, the count grows by one a round, and the user
    message of the k-th of these rounds starts with the reminder exactly when
    the count it started from plus k is more than 10: from 0, not in the
    first ten rounds, and in every round from the eleventh on. *)
Theorem reminder_comes_with_the_eleventh_quiet_round
    (World : Type) (executeTool : string -> Value -> World -> World * (Thrown + string))
    (rs : list Response) (a a' : Agent World) :
  Forall (fun r => stop_reason r = "tool_use" /\ uses_todo (content r) = false) rs ->
  agentLoop executeTool (map inr rs) a = (a', Waiting) ->
  roundsWithoutTodo a' = roundsWithoutTodo a + List.length rs
  /\ exists pushed,
       messages a' = messages a ++ pushed
       /\ reminders pushed
          = map (fun k => (10 <? roundsWithoutTodo a + k)%nat) (seq 1 (List.length rs)).
Proof.
  intros Hrs. revert a. induction Hrs as [|r rs [Hstop Hquiet] _ IH]; intros a H.
  - inversion H; subst. split; [cbn; lia|]. exists []. rewrite app_nil_r. auto.
  - cbn [map agentLoop] in H.
    destruct (turn executeTool r a) as [a1 [e|again]] eqn:T; [discriminate H|].
    destruct (turn_goes_on _ _ _ _ _ _ Hstop T) as (-> & Hc & params & Hm & _ & Hn).
    rewrite Hquiet in Hc. destruct (IH _ H) as (Hc' & pushed & Hm' & Hr).
    split; [rewrite Hc', Hc; cbn [List.length]; lia|].
    exists ([Assistant (content r); User params] ++ pushed).
    rewrite Hm', Hm, <- app_assoc. split; [reflexivity|].
    rewrite reminders_app, reminders_round, Hn, Hr, Hc.
    cbn [List.length seq map app].
    rewrite <- (seq_shift (List.length rs) 1), map_map, Nat.add_1_r. f_equal.
    apply map_ext. intros k. rewrite Nat.add_succ_comm. reflexivity.
Qed.

Lemma reminder_comes_with_the_eleventh_quiet_round_witness :
  let executeTool := fun (name : string) (_ : Value) (w : unit) => (w, inr name) in
  let r := mkResponse [ToolUse "a" "bash" Null] "tool_use" in
  let a' := fst (agentLoop executeTool (map inr (repeat r 12)) (mkAgent [] 0 tt)) in
  roundsWithoutTodo a' = 12
  /\ reminders (messages a')
     = [false; false; false; false; false; false; false; false; false; false; true; true].
Proof.
  intros executeTool r a'.
  destruct (reminder_comes_with_the_eleventh_quiet_round unit executeTool
              (repeat r 12) (mkAgent [] 0 tt) a') as (Hc & pushed & Hm & Hr).
  - repeat constructor.
  - reflexivity.
  - split; [exact Hc|]. rewrite Hm. exact Hr.
Defined.

(** While the count stays at 10 or less, no round carries the reminder. *)
Lemma no_reminder_up_to_ten
    (World : Type) (executeTool : string -> Value -> World -> World * (Thrown + string))
    (rs : list Response) (a' : Agent World) :
  Forall (fun r => stop_reason r = "tool_use") rs ->
  forall a,
    agentLoop executeTool (map inr rs) a = (a', Waiting) ->
    roundsWithoutTodo a + List.length rs <= 10 ->
    roundsWithoutTodo a' <= roundsWithoutTodo a + List.length rs
    /\ exists pushed,
         messages a' = messages a ++ pushed
         /\ reminders pushed = repeat false (List.length rs).
Proof.
  induction 1 as [|r rs Hstop _ IH]; intros a H Hten.
  - inversion H; subst. split; [lia|]. exists []. rewrite app_nil_r. auto.
  - cbn [map agentLoop] in H. cbn [List.length] in Hten.
    destruct (turn executeTool r a) as [a1 [e|again]] eqn:T; [discriminate H|].
    destruct (turn_goes_on _ _ _ _ _ _ Hstop T) as (-> & Hc & params & Hm & _ & Hn).
    assert (Hc1 : roundsWithoutTodo a1 <= S (roundsWithoutTodo a))
      by (rewrite Hc; destruct (uses_todo (content r)); lia).
    destruct (IH _ H ltac:(lia)) as (Hc' & pushed & Hm' & Hr).
    split; [cbn [List.length]; lia|].
    exists ([Assistant (content r); User params] ++ pushed).
    rewrite Hm', Hm, <- app_assoc. split; [reflexivity|].
    rewrite reminders_app, reminders_round, Hn, Hr.
    rewrite (proj2 (Nat.ltb_ge 10 _)) by lia. reflexivity.
Qed.

(** X9.  A call of [todo_write] buys ten rounds, whatever it answers.  A
    round one of whose tool calls is named [todo_write] carries no reminder,
    however high the count was and whether the tool accepted the list or
    answered with an error, and neither do the next ten rounds, whatever they
    call. *)
Theorem todo_write_silences_the_reminder
    (World : Type) (executeTool : string -> Value -> World -> World * (Thrown + string))
    (r : Response) (rs : list Response) (a a' : Agent World) :
  stop_reason r = "tool_use" ->
  uses_todo (content r) = true ->
  Forall (fun r => stop_reason r = "tool_use") rs ->
  List.length rs <= 10 ->
  agentLoop executeTool (inr r :: map inr rs) a = (a', Waiting) ->
  exists pushed,
    messages a' = messages a ++ pushed
    /\ reminders pushed = repeat false (S (List.length rs)).
Proof.
  intros Hstop Htodo Hrs Hlen H. cbn [agentLoop] in H.
  destruct (turn executeTool r a) as [a1 [e|again]] eqn:T; [discriminate H|].
  destruct (turn_goes_on _ _ _ _ _ _ Hstop T) as (-> & Hc & params & Hm & _ & Hn).
  rewrite Htodo in Hc.
  destruct (no_reminder_up_to_ten _ _ _ _ Hrs _ H ltac:(lia)) as (_ & pushed & Hm' & Hr).
  exists ([Assistant (content r); User params] ++ pushed).
  rewrite Hm', Hm, <- app_assoc. split; [reflexivity|].
  rewrite reminders_app, reminders_round, Hn, Hr, Hc. reflexivity.
Qed.

Lemma todo_write_silences_the_reminder_witness :
  let executeTool := fun (name : string) (_ : Value) (w : unit) =>
                       (w, inr (if name =? "todo_write"
                                then "错误: 第 0 项: 需要内容 (content)" else name)) in
  let todo := mkResponse [ToolUse "a" "bash" Null; ToolUse "b" "todo_write" Null]
                "tool_use" in
  let quiet := mkResponse [ToolUse "c" "bash" Null] "tool_use" in
  let a' := fst (agentLoop executeTool (inr todo :: map inr (repeat quiet 10))
                   (mkAgent [] 40 tt)) in
  roundsWithoutTodo a' = 10
  /\ reminders (messages a') = repeat false 11.
Proof.
  intros executeTool todo quiet a'.
  destruct (todo_write_silences_the_reminder unit executeTool todo (repeat quiet 10)
              (mkAgent [] 40 tt) a') as (pushed & Hm & Hr).
  - reflexivity.
  - reflexivity.
  - repeat constructor.
  - cbn. lia.
  - reflexivity.
  - split; [reflexivity|]. rewrite Hm. exact Hr.
Defined.

(* ================================================================== *)
(** ** The manager of the tutorial *)
(* ================================================================== *)

Section TutorialHost.

(** The two functions of the host that the two managers call. *)
Variable toLocaleLowerCase : string -> string.
Variable toLowerCase : string -> string.

Lemma tutorial_for_items_cons item rest i v n this :
  Tutorial.for_items toLowerCase (item :: rest) i v n this =
  match Tutorial.validate toLowerCase i item with
  | inl e => (this, inl e)
  | inr t =>
      Tutorial.for_items toLowerCase rest (S i) (v ++ [t])
        (if is_in_progress t then S n else n) this
  end.
Proof.
  cbn [Tutorial.for_items]. unfold Tutorial.validate, bind, lift, throw_if.
  destruct item; cbn [Tutorial.get optget]; try reflexivity;
    (destruct (ToString (or_else _ (Str ""))) as [e|c]; [reflexivity|]);
    (destruct (Tutorial.call_toLowerCase _ _) as [e|st]; [reflexivity|]);
    (destruct (ToString (or_else _ (Str ""))) as [e|a]; [reflexivity|]);
    (destruct (_ || _); [reflexivity|]);
    destruct (array_includes statuses st); reflexivity.
Qed.

(** A record passes the loop of the tutorial exactly when it passes the loop
    of [src/manager] on the same lower-casing, and the record pushed is the
    same. *)
Lemma tutorial_validate_record_of i item t :
  Tutorial.validate toLowerCase i item = inr t <-> Spec.record_of toLowerCase item = Some t.
Proof.
  unfold Tutorial.validate, Spec.record_of, Spec.validate, Spec.status_of, content_of,
    activeForm_of, trimmed.
  unfold Tutorial.call_toLowerCase, call_toLocaleLowerCase.
  destruct item; cbn [Tutorial.get optget or_else truthy ToString];
    try (cbn; split; discriminate).
  destruct (ToString (or_else (lookup "content" properties) (Str ""))) as [e|c];
    [split; discriminate|].
  destruct (or_else (lookup "status" properties) (Str "pending"));
    try (split; discriminate).
  destruct (ToString (or_else (lookup "activeForm" properties) (Str ""))) as [e|a];
    [split; discriminate|].
  destruct (trim c =? ""); [split; discriminate|].
  cbn [orb].
  destruct (trim a =? "").
  - destruct (negb (array_includes statuses _)); split; discriminate.
  - destruct (negb (array_includes statuses _)); [split; discriminate|].
    split; intros H; inversion H; reflexivity.
Qed.

Lemma tutorial_for_items_records pre ts :
  Spec.records toLowerCase pre ts ->
  forall rest i v n this,
    Tutorial.for_items toLowerCase (pre ++ rest) i v n this =
    Tutorial.for_items toLowerCase rest (i + List.length pre) (v ++ ts)
      (n + in_progress ts) this.
Proof.
  induction 1 as [|item t pre ts Ht _ IH]; intros rest i v n this.
  - cbn. rewrite Nat.add_0_r, app_nil_r, Nat.add_0_r. reflexivity.
  - rewrite <- app_comm_cons, tutorial_for_items_cons.
    apply (tutorial_validate_record_of i) in Ht. rewrite Ht.
    rewrite IH, <- app_assoc. cbn [app List.length].
    rewrite in_progress_cons.
    f_equal; [lia|].
    destruct (is_in_progress t); lia.
Qed.

Lemma tutorial_render_view this :
  Tutorial.render this = (this, inr (Tutorial.view (items this))).
Proof.
  destruct this as [[|t ts]]; reflexivity.
Qed.

Lemma tutorial_update_records items ts this :
  Spec.records toLowerCase items ts ->
  Tutorial.update toLowerCase items this =
  if (1 <? in_progress ts)%nat then (this, inl (Error Tutorial.only_one))
  else (mkTodoManager (firstn 20 ts), inr (Tutorial.view (firstn 20 ts))).
Proof.
  intros H. unfold Tutorial.update, bind.
  pose proof (tutorial_for_items_records items ts H [] 0 [] 0 this) as E.
  rewrite app_nil_r in E. rewrite E.
  cbn [Tutorial.for_items ret app fst snd Nat.add]. unfold throw_if.
  destruct (1 <? in_progress ts)%nat; [reflexivity|].
  cbn [ret set_items]. apply tutorial_render_view.
Qed.

Lemma tutorial_update_first_error pre ts item post e this :
  Spec.records toLowerCase pre ts ->
  Tutorial.validate toLowerCase (List.length pre) item = inl e ->
  Tutorial.update toLowerCase (pre ++ item :: post) this = (this, inl e).
Proof.
  intros H He. unfold Tutorial.update, bind.
  rewrite (tutorial_for_items_records pre ts H), tutorial_for_items_cons.
  cbn [Nat.add]. rewrite He. reflexivity.
Qed.

(** X10.  The manager of the tutorial refuses no list for its length: it
    cuts.  When every record passes, all of them are counted for the
    in-progress check, and if at most one is in progress the first 20 are
    stored and shown, the others dropped without a word; so the stored list
    never has more than 20 records, and a second in-progress record beyond
    the twentieth still makes [update] throw. *)
Theorem tutorial_update_cuts_at_twenty
    (items : list Value) (ts : list TodoItem) (this : TodoManager) :
  Spec.records toLowerCase items ts ->
  Tutorial.update toLowerCase items this
  = (if (1 <? in_progress ts)%nat then (this, inl (Error "Only one task can be in_progress"))
     else (mkTodoManager (firstn 20 ts), inr (Tutorial.view (firstn 20 ts))))
  /\ List.length (firstn 20 ts) <= 20.
Proof.
  intros H. split; [apply (tutorial_update_records items ts this H)|].
  rewrite length_firstn. lia.
Qed.

(** The two managers call two functions of the host, [toLowerCase] and
    [toLocaleLowerCase]; they are compared on a host where the two give the
    same string. *)
Hypothesis same_lower : forall s, toLowerCase s = toLocaleLowerCase s.

Lemma record_of_same_lower item :
  Spec.record_of toLowerCase item = Spec.record_of toLocaleLowerCase item.
Proof.
  unfold Spec.record_of, Spec.validate, Spec.status_of, call_toLocaleLowerCase.
  destruct (content_of item) as [e|c]; [reflexivity|].
  destruct (or_else (optget item "status") (Str "pending")); try reflexivity.
  rewrite same_lower. reflexivity.
Qed.

Lemma records_same_lower items ts :
  Spec.records toLocaleLowerCase items ts -> Spec.records toLowerCase items ts.
Proof.
  induction 1 as [|item t items ts H _ IH]; constructor; [|exact IH].
  rewrite record_of_same_lower. exact H.
Qed.

(** X11.  On lists of at most 20 records the manager of the tutorial and the
    manager of [src/manager] accept the same lists and store the same
    records: either both return, leaving the same list, or both throw,
    leaving what each had. *)
Theorem tutorial_and_manager_agree_up_to_twenty
    (items : list Value) (this that : TodoManager) :
  List.length items <= 20 ->
  (exists ts, update toLocaleLowerCase items this = (mkTodoManager ts, inr (Spec.view ts))
              /\ Tutorial.update toLowerCase items that
                 = (mkTodoManager ts, inr (Tutorial.view ts)))
  \/ (exists e e', update toLocaleLowerCase items this = (this, inl e)
                   /\ Tutorial.update toLowerCase items that = (that, inl e')).
Proof.
  intros Hlen.
  destruct (records_or_first_error toLocaleLowerCase items)
    as [[ts H]|(pre & ts & item & post & e & -> & H & He)].
  - rewrite (update_records _ items ts this H),
      (tutorial_update_records items ts that (records_same_lower _ _ H)).
    rewrite (records_length _ _ _ H), (proj2 (Nat.ltb_ge 20 _) Hlen).
    destruct (1 <? in_progress ts)%nat; [right; eauto|].
    left. exists ts. rewrite firstn_all2 by (rewrite (records_length _ _ _ H); lia). auto.
  - right. rewrite (update_first_error _ pre ts item post e this H He).
    destruct (Tutorial.validate toLowerCase (List.length pre) item) as [e'|t] eqn:E.
    + exists e, e'.
      rewrite (tutorial_update_first_error pre ts item post e' that
                 (records_same_lower _ _ H) E).
      auto.
    + apply tutorial_validate_record_of in E. rewrite record_of_same_lower in E.
      rewrite (validate_error_record_of _ _ _ _ He) in E. discriminate E.
Qed.

End TutorialHost.

Lemma tutorial_update_cuts_at_twenty_witness :
  let plan := record "Plan" "pending" "Planning" in
  let busy := record "Build" "in_progress" "Building" in
  snd (count (fst (Tutorial.update lower_latin (busy :: repeat plan 21) new))) = inr 20
  /\ Tutorial.update lower_latin (busy :: repeat plan 20 ++ [busy]) new
     = (new, inl (Error "Only one task can be in_progress")).
Proof.
  intros plan busy. split.
  - rewrite (proj1 (tutorial_update_cuts_at_twenty lower_latin (busy :: repeat plan 21)
                      (mkTodoItem "Build" "in_progress" "Building"
                       :: repeat (mkTodoItem "Plan" "pending" "Planning") 21) new
                      ltac:(repeat constructor))).
    reflexivity.
  - rewrite (proj1 (tutorial_update_cuts_at_twenty lower_latin
                      (busy :: repeat plan 20 ++ [busy])
                      (mkTodoItem "Build" "in_progress" "Building"
                       :: repeat (mkTodoItem "Plan" "pending" "Planning") 20
                       ++ [mkTodoItem "Build" "in_progress" "Building"]) new
                      ltac:(repeat constructor))).
    reflexivity.
Defined.

Lemma tutorial_and_manager_agree_up_to_twenty_witness :
  let l := [record " Plan " "Completed" "Planning"; record "Build" "" "Building"] in
  List.length l <= 20
  /\ items (fst (update lower_latin l new)) = items (fst (Tutorial.update lower_latin l new))
  /\ items (fst (update lower_latin l new))
     = [mkTodoItem "Plan" "completed" "Planning"; mkTodoItem "Build" "pending" "Building"].
Proof.
  intros l.
  assert (Hlen : List.length l <= 20) by (cbn; lia).
  split; [exact Hlen|]. split; [|reflexivity].
  destruct (tutorial_and_manager_agree_up_to_twenty lower_latin lower_latin
              (fun s => eq_refl) l new new Hlen)
    as [(ts & H1 & H2)|(e & e' & H1 & H2)]; rewrite H1, H2; reflexivity.
Defined.

(* ================================================================== *)
(** ** [runEdit] *)
(* ================================================================== *)

Import EditFile.

Lemma prefix_drop old : forall s, prefix old s = true ->
  s = (old ++ drop (String.length old) s)%string.
Proof.
  induction old as [|a old IH]; intros s H; [reflexivity|].
  destruct s as [|a' s]; [discriminate H|]. cbn [prefix] in H.
  destruct (ascii_dec a a') as [<-|]; [|discriminate H].
  cbn [String.length drop append]. rewrite <- (IH s H). reflexivity.
Qed.

Lemma find_sound old : forall s before after,
  find old s = Some (before, after) -> s = (before ++ old ++ after)%string.
Proof.
  induction s as [|a s IH]; intros before after H.
  - cbn [find] in H. destruct (prefix old "") eqn:P; [|discriminate H].
    inversion H; subst. apply (prefix_drop old "" P).
  - cbn [find] in H. destruct (prefix old (String a s)) eqn:P.
    + inversion H; subst. apply (prefix_drop old _ P).
    + destruct (find old s) as [[b t]|] eqn:F; [|discriminate H].
      inversion H; subst. cbn [append]. rewrite <- (IH _ _ eq_refl). reflexivity.
Qed.

(** No occurrence of [old] starts before the one [find] gives. *)
Lemma find_first old : forall s before after,
  find old s = Some (before, after) ->
  forall b a, s = (b ++ old ++ a)%string -> String.length before <= String.length b.
Proof.
  induction s as [|c s IH]; intros before after H b a E.
  - cbn [find] in H. destruct (prefix old ""); [|discriminate H].
    inversion H; subst. cbn. lia.
  - cbn [find] in H. destruct (prefix old (String c s)) eqn:P.
    + inversion H; subst. cbn. lia.
    + destruct (find old s) as [[b1 t]|] eqn:F; [|discriminate H].
      inversion H; subst. destruct b as [|c' b].
      * cbn [append] in E. rewrite E, prefix_app in P. discriminate P.
      * cbn [append] in E. inversion E; subst.
        cbn [String.length]. apply le_n_S. apply (IH _ _ eq_refl b a eq_refl).
Qed.

Lemma includes_find old : forall s,
  includes s old = true -> exists before after, find old s = Some (before, after).
Proof.
  induction s as [|c s IH]; intros H.
  - cbn [includes find] in *. destruct (prefix old ""); [eauto|discriminate H].
  - cbn [includes find] in *. destruct (prefix old (String c s)); [eauto|].
    destruct (IH H) as (b & t & F). rewrite F. eauto.
Qed.

Lemma includes_dollar_cons a r :
  includes (String a r) "$" = Ascii.eqb a "$" || includes r "$".
Proof.
  cbn [includes prefix]. destruct (ascii_dec "$"%char a) as [<-|N].
  - destruct r; reflexivity.
  - destruct (Ascii.eqb_spec a "$"%char) as [->|_]; [destruct (N eq_refl)|reflexivity].
Qed.

(** A replacement without a dollar is copied as it is, and what follows it
    is read on its own. *)
Lemma substitute_plain_app m b a plain : includes plain "$" = false ->
  forall t, substitute m b a (plain ++ t)%string = (plain ++ substitute m b a t)%string.
Proof.
  induction plain as [|c plain IH]; intros H t; [reflexivity|].
  rewrite includes_dollar_cons in H. apply orb_false_iff in H. destruct H as [Hc H].
  cbn [append substitute]. destruct (plain ++ t)%string as [|c' r] eqn:E.
  - destruct plain; [|discriminate E]. cbn [append] in E. subst t. reflexivity.
  - rewrite Hc, <- E, (IH H). reflexivity.
Qed.

Lemma substitute_plain m b a plain :
  includes plain "$" = false -> substitute m b a plain = plain.
Proof.
  intros H. pose proof (substitute_plain_app m b a plain H "") as E.
  assert (R : forall s, (s ++ "")%string = s)
    by (induction s as [|x s IHs]; cbn; [|rewrite IHs]; reflexivity).
  cbn [substitute] in E. rewrite !R in E. exact E.
Qed.

Section Edit.

Variable World : Type.
Variable text : string -> World -> World * (Thrown + string).
Variable write : string -> string -> World -> World * (Thrown + unit).
Variable WORKDIR : string.
Variable type_error_message : Refusal -> string.

(** Once the path is accepted, the file read and the old text found in it,
    [runEdit] writes [replace content oldText newText] and reports. *)
Lemma runEdit_found path safe oldText newText w w1 content :
  safePath WORKDIR path = inr safe ->
  text safe w = (w1, inr content) ->
  includes content oldText = true ->
  runEdit text write WORKDIR type_error_message path oldText newText w
  = finish type_error_message path (write safe (replace content oldText newText) w1).
Proof.
  intros Hs Ht Hi. unfold runEdit, finish. rewrite Hs, Ht, Hi. reflexivity.
Qed.

End Edit.

(** X12.  [runEdit] replaces the first occurrence only.  When the path is
    accepted, the file is read and the old text occurs in it, and the new
    text holds no dollar, the text written is the file with the new text in
    the place of the occurrence of the old text that starts first; what
    follows it is written back as it is, further occurrences included. *)
Theorem runEdit_replaces_the_first_occurrence
    (World : Type) (text : string -> World -> World * (Thrown + string))
    (write : string -> string -> World -> World * (Thrown + unit))
    (WORKDIR : string) (type_error_message : Refusal -> string)
    (path safe oldText newText content : string)
    (w w1 : World) :
  safePath WORKDIR path = inr safe ->
  text safe w = (w1, inr content) ->
  includes content oldText = true ->
  includes newText "$" = false ->
  exists before after,
    content = (before ++ oldText ++ after)%string
    /\ (forall b a, content = (b ++ oldText ++ a)%string ->
                    String.length before <= String.length b)
    /\ runEdit text write WORKDIR type_error_message path oldText newText w
       = finish type_error_message path
           (write safe (before ++ newText ++ after)%string w1).
Proof.
  intros Hs Ht Hi Hn.
  destruct (includes_find oldText content Hi) as (before & after & F).
  exists before, after.
  split; [apply (find_sound _ _ _ _ F)|]. split; [apply (find_first _ _ _ _ F)|].
  rewrite (runEdit_found _ _ _ _ _ _ _ _ _ _ _ _ Hs Ht Hi).
  unfold replace. rewrite F, (substitute_plain _ _ _ _ Hn). reflexivity.
Qed.

Lemma runEdit_replaces_the_first_occurrence_witness :
  let disk := [("/w/notes.txt", "a cat and a cat")] in
  safePath "/w" "notes.txt" = inr "/w/notes.txt"
  /\ disk_read "/w/notes.txt" disk = (disk, inr "a cat and a cat")
  /\ runEdit disk_read disk_write "/w" (fun _ => "") "notes.txt" "cat" "dog" disk
     = (("/w/notes.txt", "a dog and a cat") :: disk, "已编辑 notes.txt")
  /\ exists before after,
       "a cat and a cat" = (before ++ "cat" ++ after)%string
       /\ runEdit disk_read disk_write "/w" (fun _ => "") "notes.txt" "cat" "dog" disk
          = finish (fun _ => "") "notes.txt"
              (disk_write "/w/notes.txt" (before ++ "dog" ++ after)%string disk).
Proof.
  intros disk. split; [reflexivity|]. split; [reflexivity|]. split; [reflexivity|].
  destruct (runEdit_replaces_the_first_occurrence Disk disk_read disk_write
              "/w" (fun _ => "") "notes.txt" "/w/notes.txt" "cat" "dog" "a cat and a cat"
              disk disk eq_refl eq_refl eq_refl eq_refl) as (before & after & E & _ & H).
  exists before, after. split; [exact E|exact H].
Defined.

Lemma substitute_two m b a (x c : ascii) r :
  substitute m b a (String x (String c r))
  = if Ascii.eqb x "$" then
      if Ascii.eqb c "$" then ("$" ++ substitute m b a r)%string
      else if Ascii.eqb c "`" then (b ++ substitute m b a r)%string
      else if Ascii.eqb c "&" then (m ++ substitute m b a r)%string
      else if Ascii.eqb c "'" then (a ++ substitute m b a r)%string
      else String x (substitute m b a (String c r))
    else String x (substitute m b a (String c r)).
Proof. reflexivity. Qed.

Lemma substitute_pattern m b a (c : ascii) rest :
  includes rest "$" = false ->
  substitute m b a (String "$" (String c rest))
  = if Ascii.eqb c "$" then ("$" ++ rest)%string
    else if Ascii.eqb c "`" then (b ++ rest)%string
    else if Ascii.eqb c "&" then (m ++ rest)%string
    else if Ascii.eqb c "'" then (a ++ rest)%string
    else String "$" (String c rest).
Proof.
  intros H. rewrite substitute_two.
  change (Ascii.eqb "$" "$") with true. cbv iota.
  rewrite (substitute_plain m b a rest H).
  destruct (Ascii.eqb c "$") eqn:E1; [reflexivity|].
  destruct (Ascii.eqb c "`"); [reflexivity|].
  destruct (Ascii.eqb c "&"); [reflexivity|].
  destruct (Ascii.eqb c "'"); [reflexivity|].
  assert (Hc : includes (String c rest) "$" = false)
    by (rewrite includes_dollar_cons, E1, H; reflexivity).
  rewrite (substitute_plain m b a _ Hc). reflexivity.
Qed.

(** X13.  [runEdit] does not write a new text with dollar patterns as it
    is.  When the old text is found, in a new text [$$] is written as one
    dollar, [$&] as the old text, [$`] as the part of the file before the
    occurrence and [$'] as the part after it (the text around the pattern
    holding no dollar). *)
Theorem runEdit_expands_dollar_patterns
    (World : Type) (text : string -> World -> World * (Thrown + string))
    (write : string -> string -> World -> World * (Thrown + unit))
    (WORKDIR : string) (type_error_message : Refusal -> string)
    (path safe oldText content n1 n2 : string)
    (w w1 : World) :
  safePath WORKDIR path = inr safe ->
  text safe w = (w1, inr content) ->
  includes content oldText = true ->
  includes n1 "$" = false ->
  includes n2 "$" = false ->
  exists before after,
    content = (before ++ oldText ++ after)%string
    /\ let edit newText :=
         runEdit text write WORKDIR type_error_message path oldText newText w in
       let wrote data := finish type_error_message path (write safe data w1) in
       edit (n1 ++ "$$" ++ n2)%string
       = wrote (before ++ (n1 ++ "$" ++ n2) ++ after)%string
       /\ edit (n1 ++ "$&" ++ n2)%string
          = wrote (before ++ (n1 ++ oldText ++ n2) ++ after)%string
       /\ edit (n1 ++ "$`" ++ n2)%string
          = wrote (before ++ (n1 ++ before ++ n2) ++ after)%string
       /\ edit (n1 ++ "$'" ++ n2)%string
          = wrote (before ++ (n1 ++ after ++ n2) ++ after)%string.
Proof.
  intros Hs Ht Hi H1 H2.
  destruct (includes_find oldText content Hi) as (before & after & F).
  exists before, after. split; [apply (find_sound _ _ _ _ F)|].
  cbv beta zeta. rewrite !(runEdit_found _ _ _ _ _ _ _ _ _ _ _ _ Hs Ht Hi).
  unfold replace. rewrite F.
  rewrite !(substitute_plain_app _ _ _ n1 H1).
  change ("$$" ++ n2)%string with (String "$" (String "$" n2)).
  change ("$&" ++ n2)%string with (String "$" (String "&" n2)).
  change ("$`" ++ n2)%string with (String "$" (String "`" n2)).
  change ("$'" ++ n2)%string with (String "$" (String "'" n2)).
  rewrite !(substitute_pattern _ _ _ _ n2 H2).
  repeat split; reflexivity.
Qed.

Lemma runEdit_expands_dollar_patterns_witness :
  let disk := [("/w/run.sh", "echo HOME")] in
  safePath "/w" "run.sh" = inr "/w/run.sh"
  /\ disk_read "/w/run.sh" disk = (disk, inr "echo HOME")
  /\ runEdit disk_read disk_write "/w" (fun _ => "") "run.sh" "HOME" "$$HOME" disk
     = (("/w/run.sh", "echo $HOME") :: disk, "已编辑 run.sh")
  /\ runEdit disk_read disk_write "/w" (fun _ => "") "run.sh" "HOME" "$&" disk
     = (("/w/run.sh", "echo HOME") :: disk, "已编辑 run.sh")
  /\ exists before after,
       "echo HOME" = (before ++ "HOME" ++ after)%string
       /\ runEdit disk_read disk_write "/w" (fun _ => "") "run.sh" "HOME" ("" ++ "$$" ++ "HOME") disk
          = finish (fun _ => "") "run.sh"
              (disk_write "/w/run.sh" (before ++ ("" ++ "$" ++ "HOME") ++ after)%string disk).
Proof.
  intros disk. split; [reflexivity|]. split; [reflexivity|].
  split; [reflexivity|]. split; [reflexivity|].
  destruct (runEdit_expands_dollar_patterns Disk disk_read disk_write
              "/w" (fun _ => "") "run.sh" "/w/run.sh" "HOME" "echo HOME" "" "HOME"
              disk disk eq_refl eq_refl eq_refl eq_refl eq_refl)
    as (before & after & E & H & _).
  exists before, after. split; [exact E|exact H].
Defined.

Lemma includes_empty s : includes s "" = true.
Proof. destruct s; reflexivity. Qed.

(** X14.  An empty old text is always found, at the very start: when the
    path is accepted and the file is read, [runEdit] with the empty string as
    old text writes the new text (holding no dollar) followed by the whole
    file. *)
Theorem runEdit_with_empty_old_text_prepends
    (World : Type) (text : string -> World -> World * (Thrown + string))
    (write : string -> string -> World -> World * (Thrown + unit))
    (WORKDIR : string) (type_error_message : Refusal -> string)
    (path safe newText content : string)
    (w w1 : World) :
  safePath WORKDIR path = inr safe ->
  text safe w = (w1, inr content) ->
  includes newText "$" = false ->
  runEdit text write WORKDIR type_error_message path "" newText w
  = finish type_error_message path (write safe (newText ++ content)%string w1).
Proof.
  intros Hs Ht Hn.
  rewrite (runEdit_found _ _ _ _ _ _ _ _ _ _ _ _ Hs Ht (includes_empty content)).
  unfold replace.
  assert (F : find "" content = Some ("", content)) by (destruct content; reflexivity).
  rewrite F, (substitute_plain _ _ _ _ Hn). reflexivity.
Qed.

Lemma runEdit_with_empty_old_text_prepends_witness :
  let disk := [("/w/a.txt", "body")] in
  safePath "/w" "a.txt" = inr "/w/a.txt"
  /\ disk_read "/w/a.txt" disk = (disk, inr "body")
  /\ includes "head " "$" = false
  /\ runEdit disk_read disk_write "/w" (fun _ => "") "a.txt" "" "head " disk
     = (("/w/a.txt", "head body") :: disk, "已编辑 a.txt").
Proof.
  intros disk. split; [reflexivity|]. split; [reflexivity|]. split; [reflexivity|].
  rewrite (runEdit_with_empty_old_text_prepends Disk disk_read disk_write
             "/w" (fun _ => "") "a.txt" "/w/a.txt" "head " "body" disk disk
             eq_refl eq_refl eq_refl).
  reflexivity.
Defined.

(* ================================================================== *)
(** ** Branches and channels *)
(* ================================================================== *)

Import Version.

Lemma replace_prefix old rest : replace (old ++ rest)%string old "" = rest.
Proof.
  unfold replace.
  assert (F : find old (old ++ rest)%string = Some ("", rest)).
  { pose proof (prefix_app old rest) as P.
    assert (D : drop (String.length old) (old ++ rest)%string = rest)
      by (induction old as [|a old IH]; [destruct rest; reflexivity|apply IH, prefix_app]).
    destruct (old ++ rest)%string eqn:E; cbn [find]; rewrite P, D; reflexivity. }
  rewrite F. reflexivity.
Qed.

(** X15.  The channel of a snapshot branch is what follows [snapshot-] in
    its name, whatever that is; such a branch is a preview branch.  So the
    preview branch [snapshot-latest] has the channel [latest] of the release
    branches, and [snapshot-] has the empty channel. *)
Theorem snapshot_channel_is_the_rest_of_the_name (name : string) :
  getChannel ("snapshot-" ++ name) = name
  /\ isPreviewBranch ("snapshot-" ++ name) = true.
Proof.
  split; [|reflexivity].
  unfold getChannel. change ("snapshot-" ++ name)%string with
    (String "s" (String "n" (String "a" (String "p" (String "s" (String "h"
      (String "o" (String "t" (String "-" name))))))))).
  cbn [String.eqb Ascii.eqb Bool.eqb andb orb].
  change (String "s" (String "n" (String "a" (String "p" (String "s" (String "h"
      (String "o" (String "t" (String "-" name)))))))))
    with ("snapshot-" ++ name)%string.
  rewrite prefix_app. apply replace_prefix.
Qed.

(** X16.  A branch has the channel [latest] exactly when it is [main] or
    [master], the branches that are not preview branches, or when it is
    [snapshot-latest]. *)
Theorem latest_channel_branches (branch : string) :
  getChannel branch = "latest"
  <-> (isPreviewBranch branch = false \/ branch = "snapshot-latest").
Proof.
  unfold getChannel, isPreviewBranch.
  destruct (String.eqb_spec branch "main") as [->|Hmain];
    [split; [left; reflexivity|reflexivity]|].
  destruct (String.eqb_spec branch "master") as [->|Hmaster];
    [split; [left; reflexivity|reflexivity]|].
  cbn [negb andb orb].
  destruct (String.eqb_spec branch "dev") as [->|Hdev];
    [split; [discriminate|intros [H|H]; discriminate H]|].
  destruct (String.eqb_spec branch "beta") as [->|Hbeta];
    [split; [discriminate|intros [H|H]; discriminate H]|].
  destruct (prefix "snapshot-" branch) eqn:P.
  - rewrite (prefix_drop _ _ P), replace_prefix. split.
    + intros ->. right. reflexivity.
    + intros [H|H]; [discriminate H|].
      rewrite <- (prefix_drop _ _ P) in H. subst branch. reflexivity.
  - split; [discriminate|]. intros [H | ->]; discriminate.
Qed.
